(** * OpenLayers-React: binding an OpenLayers map to a React component

    The repository holds two versions of one component, [OLMap]:

    - the _basic_ one (the second listing in [src/OLMapContext.ts], also in
      the README) builds its own [Map] inside the effect, with the rendered
      [div] as target: the specification's private mode;
    - the _better_ one ([src/unnamed/part_000], the README's final
      [OLMap.tsx]) takes the map from [OLMapContext], whose default value is
      built once, when the module [OLMapContext.ts] (the first listing in
      [src/OLMapContext.ts]) is evaluated, and only sets and clears its
      target: the specification's shared mode.

    Both are embedded below over a small model of what they run on: a heap of
    OpenLayers maps, React ref objects, DOM nodes, and the schedule by which
    the host framework renders a component, commits its elements and runs its
    effects.  Every operation appends to a trace, so that ordering properties
    can be stated on the trace of a whole run. *)

From stdpp Require Import base option list gmap strings.

Open Scope Z_scope.
Open Scope nat_scope.

(** ** Values and objects *)

Abbreviation handle := nat (only parsing).   (* identity of a DOM node *)
Abbreviation loc := nat (only parsing).      (* identity of a heap object *)
Abbreviation cid := nat (only parsing).      (* key of a component instance (a site in the tree) *)

(** What flows into a map's [target]: [undefined], [null] or a DOM element. *)
Inductive value :=
  | VUndefined
  | VNull
  | VElement (h : handle).

#[global] Instance value_eq_dec : EqDecision value.
Proof. solve_decision. Defined.

(** [ol/source] and [ol/layer/Tile]: only what the listings construct. *)
Inductive Source := OSM.
Inductive Layer := TileLayer (source : Source).

Record View := mkView { center : Z * Z; zoom : Z }.

(** The options object literal passed to [new Map({...})].  A key the literal
    does not have reads as [undefined]. *)
Record MapOptions := mkOptions {
  o_target : value;
  o_layers : list Layer;
  o_view : View
}.

(** An [ol.Map] object.  [disposed] is the flag of OpenLayers' [Disposable]. *)
Record Map := mkMap {
  target : value;
  layers : list Layer;
  view : View;
  disposed : bool
}.

Record Node := mkNode {
  node_id : option string;   (* the [id] attribute *)
  connected : bool           (* is the node in the document? *)
}.

(** ** The trace *)

Inductive action :=
  | ARender (c : cid)                     (* the component function is called *)
  | ACommit (c : cid) (h : handle)        (* node [h] of [c] enters the document *)
  | AConstruct (l : loc) (o : MapOptions) (* [new Map(o)] returned object [l] *)
  | ASetTarget (l : loc) (v : value)      (* [l.setTarget(v)] *)
  | ADispose (l : loc)                    (* [l.dispose()] *)
  | ARemove (c : cid) (h : handle).       (* node [h] of [c] leaves the document *)

(** ** The world outside React's bookkeeping *)

Record World := mkWorld {
  maps : list Map;        (* heap of maps, a [loc] is an index *)
  refs : list value;      (* heap of ref objects: their [current] *)
  nodes : list Node;      (* DOM nodes, a [handle] is an index *)
  trace : list action     (* oldest first *)
}.

Definition empty_world : World := mkWorld [] [] [] [].

Definition log (a : action) (w : World) : World :=
  mkWorld (maps w) (refs w) (nodes w) (trace w ++ [a]).

(** ** OpenLayers operations

    OpenLayers is an external library; of its [Map] only the constructor,
    [setTarget] and [dispose] matter here. *)

(** Modelled from the spec: [new Map(options)] allocates a viewer that holds
    the target, the layers and the view of [options]. *)
Definition new_Map (o : MapOptions) (w : World) : loc * World :=
  let l := length (maps w) in
  (l, mkWorld (maps w ++ [mkMap (o_target o) (o_layers o) (o_view o) false])
              (refs w) (nodes w) (trace w ++ [AConstruct l o])).

Definition with_target (v : value) (m : Map) : Map :=
  mkMap v (layers m) (view m) (disposed m).

(** Modelled from the spec: [map.setTarget(v)] overwrites the one target a
    map has, whatever it was. *)
Definition setTarget (l : loc) (v : value) (w : World) : World :=
  mkWorld (alter (with_target v) l (maps w)) (refs w) (nodes w)
          (trace w ++ [ASetTarget l v]).

(** Modelled from the spec: [map.dispose()], the teardown of a viewer: it
    clears the target and marks the object disposed.  It is part of the
    library's interface; neither listing calls it. *)
Definition dispose (l : loc) (w : World) : World :=
  mkWorld (alter (fun m => mkMap VNull (layers m) (view m) true) l (maps w))
          (refs w) (nodes w) (trace w ++ [ADispose l]).

(** ** Ref objects *)

Definition new_ref (init : value) (w : World) : loc * World :=
  (length (refs w), mkWorld (maps w) (refs w ++ [init]) (nodes w) (trace w)).

Definition current (r : loc) (w : World) : value :=
  default VUndefined (refs w !! r).

Definition set_current (r : loc) (v : value) (w : World) : World :=
  mkWorld (maps w) (<[r := v]> (refs w)) (nodes w) (trace w).

(** TypeScript's postfix [!]: erased by the compiler, no check at run time. *)
Definition non_null_assertion (v : value) : value := v.

(** ** The host framework

    React is an external dependency, not code of this repository.  What
    follows is the part of its contract the two listings rely on, as sections
    3 to 5 of the specification and the README describe it: hooks keep their
    state per component instance, [useEffect] defers its callback until the
    rendered elements are in the document and their refs are set, an effect
    whose dependency array did not change is skipped on re-render.  On
    unmount the framework first clears the refs and takes the nodes out of
    the document, and runs the cleanup of a [useEffect] after that; sections
    4.2 and 5 of the specification word this order the other way round. *)

Definition Destroy := World -> World.
Definition Create := World -> World * option Destroy.

(** The second argument of [useEffect]: absent, or an array. *)
Inductive deps :=
  | NoDeps
  | Deps (ds : list value).

(** The elements a component returns; both listings only use [div]. *)
#[warnings="-register-all"]
Inductive jsx :=
  | Div (ref : option loc) (id : option string) (children : list jsx).

(** What the framework remembers of one mounted component instance. *)
Record Fiber := mkFiber {
  hook_ref : option loc;              (* the object [useRef] returned *)
  hook_deps : option deps;            (* dependencies of the previous render *)
  pending : option Create;            (* effect scheduled by this render *)
  destroy : option Destroy;           (* cleanup the last effect returned *)
  host : list (handle * option loc)   (* committed nodes and their [ref] props *)
}.

Definition empty_fiber : Fiber := mkFiber None None None None [].

(** The render phase: a component function reads and updates its own hook
    state and may touch the world. *)
Definition Render (A : Type) : Type := Fiber -> World -> A * Fiber * World.

Definition ret {A} (a : A) : Render A := fun f w => (a, f, w).

Definition bind {A B} (m : Render A) (k : A -> Render B) : Render B :=
  fun f w => let '(a, f', w') := m f w in k a f' w'.

Declare Scope render_scope.
Delimit Scope render_scope with render.
Notation "x <- m ;; k" := (bind m (fun x => k))
  (at level 100, m at next level, k at level 200, right associativity) : render_scope.
Notation "m ;; k" := (bind m (fun _ => k))
  (at level 100, k at level 200, right associativity) : render_scope.

Record Context := createContext { defaultValue : loc }.

(** Modelled from the spec: [useContext] gives every caller the value the
    context holds.  No listing renders a provider (the README says so), so
    that value is always the default one. *)
Definition useContext (ctx : Context) : Render loc :=
  fun f w => (defaultValue ctx, f, w).

(** Modelled from the spec: [useRef] allocates its object on the first render
    of an instance and returns the same object on every later render. *)
Definition useRef (init : value) : Render loc :=
  fun f w =>
    match hook_ref f with
    | Some r => (r, f, w)
    | None =>
        let '(r, w') := new_ref init w in
        (r, mkFiber (Some r) (hook_deps f) (pending f) (destroy f) (host f), w')
    end.

Definition deps_changed (prev : option deps) (next : deps) : bool :=
  match prev, next with
  | Some (Deps old), Deps new => negb (bool_decide (old = new))
  | _, _ => true
  end.

(** Modelled from the spec: [useEffect] only schedules [create]; on a
    re-render it schedules nothing when the dependency array is unchanged. *)
Definition useEffect (create : Create) (d : deps) : Render unit :=
  fun f w =>
    (tt,
     mkFiber (hook_ref f) (Some d)
             (if deps_changed (hook_deps f) d then Some create else None)
             (destroy f) (host f),
     w).

(** *** Commit *)

Fixpoint create_nodes (e : jsx) (w : World) : list (handle * option loc) * World :=
  match e with
  | Div r i kids =>
      let h := length (nodes w) in
      let w1 := mkWorld (maps w) (refs w) (nodes w ++ [mkNode i false]) (trace w) in
      let '(hs, w2) :=
        (fix go (ks : list jsx) (w : World) :=
           match ks with
           | [] => ([], w)
           | k :: ks' =>
               let '(a, w') := create_nodes k w in
               let '(b, w'') := go ks' w' in
               (a ++ b, w'')
           end) kids w1 in
      ((h, r) :: hs, w2)
  end.

Definition set_connected (b : bool) (n : Node) : Node := mkNode (node_id n) b.

Definition insert_node (c : cid) (w : World) (hr : handle * option loc) : World :=
  mkWorld (maps w) (refs w) (alter (set_connected true) hr.1 (nodes w))
          (trace w ++ [ACommit c hr.1]).

Definition remove_node (c : cid) (w : World) (hr : handle * option loc) : World :=
  mkWorld (maps w) (refs w) (alter (set_connected false) hr.1 (nodes w))
          (trace w ++ [ARemove c hr.1]).

Definition attach_ref (w : World) (hr : handle * option loc) : World :=
  match hr.2 with
  | Some r => set_current r (VElement hr.1) w
  | None => w
  end.

Definition detach_ref (w : World) (hr : handle * option loc) : World :=
  match hr.2 with
  | Some r => set_current r VNull w
  | None => w
  end.

(** Modelled from the spec: the commit of a first render creates the nodes,
    puts them into the document and then sets the refs bound to them. *)
Definition commit_mount (c : cid) (e : jsx) (f : Fiber) (w : World) : Fiber * World :=
  let '(hs, w1) := create_nodes e w in
  let w2 := foldl (insert_node c) w1 hs in
  let w3 := foldl attach_ref w2 hs in
  (mkFiber (hook_ref f) (hook_deps f) (pending f) (destroy f) hs, w3).

(** *** Effects *)

Definition run_destroy (f : Fiber) (w : World) : World :=
  match destroy f with
  | Some d => d w
  | None => w
  end.

(** Modelled from the spec: after the commit, a scheduled effect runs (after
    the cleanup of its previous run, if any) and its cleanup is kept. *)
Definition flush_effects (f : Fiber) (w : World) : Fiber * World :=
  match pending f with
  | None => (f, w)
  | Some create =>
      let '(w', d) := create (run_destroy f w) in
      (mkFiber (hook_ref f) (hook_deps f) None d (host f), w')
  end.

(** *** Mount, re-render, unmount *)

Record State := mkState {
  world : World;
  fibers : gmap cid Fiber
}.

(** Modelled from the spec: render, then commit, then effects. *)
Definition mount (body : Render jsx) (c : cid) (s : State) : State :=
  let '(e, f1, w1) := body empty_fiber (log (ARender c) (world s)) in
  let '(f2, w2) := commit_mount c e f1 w1 in
  let '(f3, w3) := flush_effects f2 w2 in
  mkState w3 (<[c := f3]> (fibers s)).

(** Modelled from the spec: a re-render calls the component again and runs
    the effects it scheduled.  Both listings return the same element types at
    the same positions on every render, so the committed nodes and their refs
    are kept. *)
Definition rerender (body : Render jsx) (c : cid) (f : Fiber) (s : State) : State :=
  let '(_, f1, w1) := body f (log (ARender c) (world s)) in
  let '(f2, w2) := flush_effects f1 w1 in
  mkState w2 (<[c := f2]> (fibers s)).

(** The world in which the cleanup of an unmount is called: the refs of the
    instance are cleared and its nodes are out of the document already. *)
Definition at_cleanup (c : cid) (f : Fiber) (s : State) : World :=
  foldl (remove_node c) (foldl detach_ref (world s) (host f)) (host f).

(** The unmount of the framework the listings run on: the refs are cleared
    and the nodes leave the document first; the cleanup a [useEffect]
    returned runs last, on the world so changed. *)
Definition unmount (c : cid) (f : Fiber) (s : State) : State :=
  mkState (run_destroy f (at_cleanup c f s)) (delete c (fibers s)).

(** ** The two listings *)

(** [src/OLMapContext.ts], first listing:
    [createContext(new Map({layers: [new TileLayer({source: new OSM()})],
    view: new View({center: [0, 0], zoom: 2})}))], evaluated once, when the
    module is first imported. *)
Definition load_OLMapContext (w : World) : Context * World :=
  let '(m, w') :=
    new_Map (mkOptions VUndefined [TileLayer OSM] (mkView (0%Z, 0%Z) 2%Z)) w in
  (createContext m, w').

Definition OLMapContext : Context := (load_OLMapContext empty_world).1.

Open Scope render_scope.

Module Basic.
(** [src/OLMapContext.ts], second listing: the map is built in the effect,
    with [mapRef.current!] as its target; the cleanup is
    [() => {olMap.setTarget(undefined)}]. *)
Definition effect (mapRef : loc) : Create :=
  fun w =>
    let '(olMap, w') :=
      new_Map (mkOptions (non_null_assertion (current mapRef w))
                         [TileLayer OSM]
                         (mkView (0%Z, 0%Z) 2%Z)) w in
    (w', Some (fun w => setTarget olMap VUndefined w)).

Definition OLMap : Render jsx :=
  mapRef <- useRef VNull ;;
  useEffect (effect mapRef) (Deps []) ;;
  ret (Div (Some mapRef) (Some "map"%string) []).
End Basic.

Module Better.
(** [src/unnamed/part_000]: the map comes from [useContext(OLMapContext)];
    the effect is [olMap.setTarget(mapRef.current!)] and returns the cleanup
    [() => {olMap.setTarget(undefined)}]. *)
Definition effect (olMap : loc) (mapRef : loc) : Create :=
  fun w =>
    let w' := setTarget olMap (non_null_assertion (current mapRef w)) w in
    (w', Some (fun w => setTarget olMap VUndefined w)).

Definition OLMap : Render jsx :=
  olMap <- useContext OLMapContext ;;
  mapRef <- useRef VNull ;;
  useEffect (effect olMap mapRef) (Deps []) ;;
  ret (Div None None [Div (Some mapRef) (Some "map"%string) []]).
End Better.

Close Scope render_scope.

(** ** Running an application *)

Inductive mode := Private | Shared.

Definition component (m : mode) : Render jsx :=
  match m with
  | Private => Basic.OLMap
  | Shared => Better.OLMap
  end.

(** Module evaluation: only the shared listing imports [OLMapContext]. *)
Definition init (m : mode) : State :=
  match m with
  | Private => mkState empty_world ∅
  | Shared => mkState (load_OLMapContext empty_world).2 ∅
  end.

Inductive event :=
  | Mount (c : cid)
  | Rerender (c : cid)
  | Unmount (c : cid).

(** An event that does not fit the instance's state (mounting what is mounted,
    updating or unmounting what is not) is dropped. *)
Definition step (m : mode) (s : State) (e : event) : State :=
  match e with
  | Mount c =>
      match fibers s !! c with
      | Some _ => s
      | None => mount (component m) c s
      end
  | Rerender c =>
      match fibers s !! c with
      | Some f => rerender (component m) c f s
      | None => s
      end
  | Unmount c =>
      match fibers s !! c with
      | Some f => unmount c f s
      | None => s
      end
  end.

Definition run_from (m : mode) (s : State) (es : list event) : State :=
  foldl (step m) s es.

Definition run (m : mode) (es : list event) : State :=
  run_from m (init m) es.

(** * Vocabulary of the statements

    Names for what the listings do in one step, the invariant of a run, and
    the predicates on traces the theorems are stated with. *)

(** The cleanup both listings return. *)
Definition detach (l : loc) : Destroy := fun w => setTarget l VUndefined w.

Definition shared_viewer : loc := defaultValue OLMapContext.

(** The nodes a mount creates, from the first fresh handle on. *)
Definition host_of (m : mode) (h0 : handle) (r : loc) : list (handle * option loc) :=
  match m with
  | Private => [(h0, Some r)]
  | Shared => [(h0, None); (S h0, Some r)]
  end.

Definition surface_of (m : mode) (h0 : handle) : handle :=
  match m with
  | Private => h0
  | Shared => S h0
  end.

Definition new_nodes (m : mode) : list Node :=
  match m with
  | Private => [mkNode (Some "map"%string) true]
  | Shared => [mkNode None true; mkNode (Some "map"%string) true]
  end.

Definition viewer_for (m : mode) (w : World) : loc :=
  match m with
  | Private => length (maps w)
  | Shared => shared_viewer
  end.

Definition attach_action (m : mode) (l : loc) (h : handle) : action :=
  match m with
  | Private =>
      AConstruct l (mkOptions (VElement h) [TileLayer OSM] (mkView (0%Z, 0%Z) 2%Z))
  | Shared => ASetTarget l (VElement h)
  end.

Definition mounted_fiber (m : mode) (l r : loc) (h0 : handle) : Fiber :=
  mkFiber (Some r) (Some (Deps [])) None (Some (detach l)) (host_of m h0 r).

Definition mount_world (m : mode) (c : cid) (w : World) : World :=
  let h0 := length (nodes w) in
  let h := surface_of m h0 in
  let l := viewer_for m w in
  mkWorld
    match m with
    | Private => maps w ++ [mkMap (VElement h) [TileLayer OSM] (mkView (0%Z, 0%Z) 2%Z) false]
    | Shared => alter (with_target (VElement h)) l (maps w)
    end
    (refs w ++ [VElement h])
    (nodes w ++ new_nodes m)
    (trace w ++ ARender c :: map (ACommit c) (host_of m h0 (length (refs w))).*1
             ++ [attach_action m l h]).

(** The node of a fiber that carries its ref: the surface the map draws into. *)
Definition surface (f : Fiber) : option handle :=
  r ← hook_ref f;
  hr ← find (fun hr => bool_decide (hr.2 = Some r)) (host f);
  Some hr.1.

Definition disconnect (hs : list handle) (ns : list Node) : list Node :=
  foldl (fun ns h => alter (set_connected false) h ns) ns hs.

Definition unmount_world (m : mode) (c : cid) (l r : loc) (h0 : handle) (w : World) : World :=
  mkWorld (alter (with_target VUndefined) l (maps w))
          (<[r := VNull]> (refs w))
          (disconnect (host_of m h0 r).*1 (nodes w))
          (trace w ++ map (ARemove c) (host_of m h0 r).*1 ++ [ASetTarget l VUndefined]).

Definition good_map (mp : Map) : Prop :=
  layers mp = [TileLayer OSM] ∧ view mp = mkView (0%Z, 0%Z) 2%Z ∧ disposed mp = false.

Definition is_connected (w : World) (h : handle) : Prop :=
  ∃ n, nodes w !! h = Some n ∧ connected n = true.

Definition fiber_ok (m : mode) (w : World) (f : Fiber) : Prop :=
  ∃ l r h0,
    f = mounted_fiber m l r h0 ∧
    l < length (maps w) ∧
    (m = Shared → l = shared_viewer) ∧
    (∀ h, h ∈ (host f).*1 → is_connected w h).

Record Inv (m : mode) (s : State) : Prop := mkInv {
  inv_fibers : ∀ c f, fibers s !! c = Some f → fiber_ok m (world s) f;
  inv_disjoint : ∀ c1 c2 f1 f2 h,
    c1 ≠ c2 → fibers s !! c1 = Some f1 → fibers s !! c2 = Some f2 →
    h ∈ (host f1).*1 → h ∉ (host f2).*1;
  inv_maps : Forall good_map (maps (world s));
  inv_single : m = Shared → length (maps (world s)) = 1
}.

Inductive delta_of (m : mode) : list action → Prop :=
  | delta_none : delta_of m []
  | delta_mount c l r h0 :
      (m = Shared → l = shared_viewer) →
      delta_of m (ARender c :: map (ACommit c) (host_of m h0 r).*1
                    ++ [attach_action m l (surface_of m h0)])
  | delta_rerender c : delta_of m [ARender c]
  | delta_unmount c l r h0 :
      (m = Shared → l = shared_viewer) →
      delta_of m (map (ARemove c) (host_of m h0 r).*1 ++ [ASetTarget l VUndefined]).

Inductive trace_of (m : mode) : list action → Prop :=
  | trace_init : trace_of m (trace (world (init m)))
  | trace_step t d : trace_of m t → delta_of m d → trace_of m (t ++ d).

(** The surface an action hands to a viewer, if it hands one. *)
Definition attached_by (a : action) : option handle :=
  match a with
  | ASetTarget _ (VElement h) => Some h
  | AConstruct _ o =>
      match o_target o with
      | VElement h => Some h
      | _ => None
      end
  | _ => None
  end.

(** Every attach comes right after the commit of the surface it attaches. *)
Definition commit_first (t : list action) : Prop :=
  ∀ i a h, t !! i = Some a → attached_by a = Some h →
    ∃ c j, i = S j ∧ t !! j = Some (ACommit c h).

Definition is_construct (a : action) : bool :=
  match a with AConstruct _ _ => true | _ => false end.

Definition is_attach (a : action) : bool :=
  match attached_by a with Some _ => true | None => false end.

Definition is_viewer_op (a : action) : bool :=
  match a with
  | AConstruct _ _ | ASetTarget _ _ | ADispose _ => true
  | _ => false
  end.

Definition viewer_of (a : action) : option loc :=
  match a with
  | AConstruct l _ | ASetTarget l _ | ADispose l => Some l
  | _ => None
  end.

Definition count (p : action → bool) (t : list action) : nat :=
  length (List.filter p t).

Definition on_shared_viewer (a : action) : Prop :=
  match viewer_of a with
  | Some l => l = defaultValue OLMapContext
  | None => True
  end.

(** After construction, the only writes to a viewer are [setTarget] calls on
    the shared instance. *)
Definition writes_only_target (a : action) : Prop :=
  match a with
  | AConstruct _ _ | ADispose _ => False
  | ASetTarget l _ => l = defaultValue OLMapContext
  | _ => True
  end.

Definition passes_no_null (a : action) : Prop :=
  match a with
  | ASetTarget _ VNull => False
  | _ => True
  end.

Definition same_description (o : MapOptions) : Prop :=
  o_layers o = [TileLayer OSM] ∧ o_view o = mkView (0%Z, 0%Z) 2%Z.

Definition constructs_same (a : action) : Prop :=
  match a with
  | AConstruct _ o => same_description o
  | _ => True
  end.

#[global] Instance event_eq_dec : EqDecision event.
Proof. solve_decision. Defined.

Definition torn_down (w : World) (l : loc) : Prop :=
  ∃ mp, maps w !! l = Some mp ∧ disposed mp = true.

Definition never_disposes (a : action) : Prop :=
  match a with
  | ADispose _ => False
  | _ => True
  end.

(** * Further vocabulary

    For the properties of the listings beyond the specification's: who owns
    which viewer, the balance of attaches and detaches, and the README's
    first, naive listing. *)

(** The call both cleanups make. *)
Definition is_detach (a : action) : bool :=
  match a with
  | ASetTarget _ VUndefined => true
  | _ => false
  end.

(** A viewer with an element as target is the viewer of a mounted instance,
    and the element is that instance's surface. *)
Definition owned_targets (m : mode) (s : State) : Prop :=
  ∀ l mp, maps (world s) !! l = Some mp →
    target mp = VUndefined ∨
    ∃ c r h0, fibers s !! c = Some (mounted_fiber m l r h0) ∧
              target mp = VElement (surface_of m h0).

(** The ref of a mounted instance holds its surface, and no two instances
    share a ref object. *)
Definition refs_bound (m : mode) (s : State) : Prop :=
  (∀ c l r h0, fibers s !! c = Some (mounted_fiber m l r h0) →
     refs (world s) !! r = Some (VElement (surface_of m h0))) ∧
  (∀ c1 c2 l1 l2 r h1 h2,
     fibers s !! c1 = Some (mounted_fiber m l1 r h1) →
     fibers s !! c2 = Some (mounted_fiber m l2 r h2) → c1 = c2).

(** Private mode: a mounted instance has a viewer attached to its surface,
    and no two instances share a viewer. *)
Definition own_viewers (s : State) : Prop :=
  (∀ c l r h0, fibers s !! c = Some (mounted_fiber Private l r h0) →
     ∃ mp, maps (world s) !! l = Some mp ∧ target mp = VElement h0) ∧
  (∀ c1 c2 l r1 r2 h1 h2,
     fibers s !! c1 = Some (mounted_fiber Private l r1 h1) →
     fibers s !! c2 = Some (mounted_fiber Private l r2 h2) → c1 = c2).

(** The map every listing describes, with a given target. *)
Definition osm_map (v : value) : Map :=
  mkMap v [TileLayer OSM] (mkView (0%Z, 0%Z) 2%Z) false.

(** ** The README's naive listing

    The first listing of the README builds the map in the component function
    itself, with the string ['map'] as target, and returns [<div id="map"/>];
    it uses no ref and no effect. *)

Definition has_id (id : string) (n : Node) : Prop :=
  connected n = true ∧ node_id n = Some id.

#[global] Instance has_id_dec id n : Decision (has_id id n).
Proof. unfold has_id. apply _. Defined.

(** Modelled from the spec: [document.getElementById(id)] is the first node
    of the document with this id, or [null].  The nodes are kept in the order
    of their creation; the statements below have at most one node with the id
    in the document, where the order plays no role. *)
Definition getElementById (id : string) (w : World) : value :=
  match list_find (has_id id) (nodes w) with
  | Some (h, _) => VElement h
  | None => VNull
  end.

Module Naive.
(** [src/README.md], "The Naive Implementation":
    [const olMap = new Map({target: 'map', layers: [...], view: ...})] in the
    body of the component, which returns [<div id="map"/>].  OpenLayers looks
    the id up when the map is constructed (README: "OpenLayers will find a
    div with the id map and attach the map to that div"), so the target the
    map gets is what [getElementById] finds at that moment. *)
Definition OLMap : Render jsx :=
  fun f w =>
    let '(olMap, w') :=
      new_Map (mkOptions (getElementById "map" w)
                         [TileLayer OSM]
                         (mkView (0%Z, 0%Z) 2%Z)) w in
    (Div None (Some "map"%string) [], f, w').
End Naive.

(** [step] and [run_from] for any component function. *)
Definition step_of (body : Render jsx) (s : State) (e : event) : State :=
  match e with
  | Mount c =>
      match fibers s !! c with
      | Some _ => s
      | None => mount body c s
      end
  | Rerender c =>
      match fibers s !! c with
      | Some f => rerender body c f s
      | None => s
      end
  | Unmount c =>
      match fibers s !! c with
      | Some f => unmount c f s
      | None => s
      end
  end.

Definition run_of (body : Render jsx) (s : State) (es : list event) : State :=
  foldl (step_of body) s es.

(** What the framework keeps of a mounted instance of the naive listing: no
    ref, no effect, no cleanup, one node. *)
Definition naive_fiber (h : handle) : Fiber :=
  mkFiber None None None None [(h, None)].

(** * Symbolic execution of one step *)

Section list_facts.
Context {A : Type}.
Implicit Types (l : list A) (x y : A).

Lemma alter_snoc (f : A -> A) l x : alter f (length l) (l ++ [x]) = l ++ [f x].
Proof. rewrite alter_app_r_alt by lia. rewrite Nat.sub_diag. reflexivity. Qed.

Lemma alter_snoc2 (f : A -> A) l x y :
  alter f (S (length l)) (alter f (length l) ((l ++ [x]) ++ [y])) = l ++ [f x; f y].
Proof.
  rewrite <- app_assoc, !alter_app_r_alt by lia.
  rewrite Nat.sub_diag. replace (S (length l) - length l) with 1 by lia.
  reflexivity.
Qed.

Lemma insert_snoc l x y : <[length l := y]> (l ++ [x]) = l ++ [y].
Proof. rewrite insert_app_r_alt by lia. rewrite Nat.sub_diag. reflexivity. Qed.

Lemma lookup_snoc_new l x : (l ++ [x]) !! length l = Some x.
Proof. apply list_lookup_middle. reflexivity. Qed.

Lemma length_snoc l x : length (l ++ [x]) = S (length l).
Proof. rewrite length_app. simpl. lia. Qed.
End list_facts.

(** Two runs, evaluated. *)
Example shared_run_trace :
  trace (world (run Shared [Mount 0; Rerender 0; Unmount 0; Mount 1])) =
  [AConstruct 0 (mkOptions VUndefined [TileLayer OSM] (mkView (0%Z, 0%Z) 2%Z));
   ARender 0; ACommit 0 0; ACommit 0 1; ASetTarget 0 (VElement 1);
   ARender 0;
   ARemove 0 0; ARemove 0 1; ASetTarget 0 VUndefined;
   ARender 1; ACommit 1 2; ACommit 1 3; ASetTarget 0 (VElement 3)].
Proof. reflexivity. Qed.

Example private_run_trace :
  trace (world (run Private [Mount 0; Rerender 0; Unmount 0; Mount 1])) =
  [ARender 0; ACommit 0 0;
   AConstruct 0 (mkOptions (VElement 0) [TileLayer OSM] (mkView (0%Z, 0%Z) 2%Z));
   ARender 0;
   ARemove 0 0; ASetTarget 0 VUndefined;
   ARender 1; ACommit 1 1;
   AConstruct 1 (mkOptions (VElement 1) [TileLayer OSM] (mkView (0%Z, 0%Z) 2%Z))].
Proof. reflexivity. Qed.

Lemma surface_mounted m l r h0 :
  surface (mounted_fiber m l r h0) = Some (surface_of m h0).
Proof.
  destruct m; unfold surface; cbn.
  - rewrite bool_decide_eq_true_2 by reflexivity. reflexivity.
  - rewrite bool_decide_eq_false_2 by discriminate. cbn.
    rewrite bool_decide_eq_true_2 by reflexivity. reflexivity.
Qed.

Lemma mount_eq m c s :
  mount (component m) c s =
  mkState (mount_world m c (world s))
          (<[c := mounted_fiber m (viewer_for m (world s))
                                (length (refs (world s)))
                                (length (nodes (world s)))]> (fibers s)).
Proof.
  destruct m; unfold mount, mount_world; cbn.
  - unfold commit_mount, flush_effects, Basic.effect, non_null_assertion,
      current, set_current, new_Map; cbn.
    rewrite insert_snoc, lookup_snoc_new, alter_snoc; cbn.
    rewrite <- !app_assoc; cbn. reflexivity.
  - unfold commit_mount, flush_effects, Better.effect, non_null_assertion,
      current, set_current, setTarget; cbn.
    rewrite insert_snoc, lookup_snoc_new; cbn.
    rewrite !length_snoc, alter_snoc2, <- !app_assoc; cbn. reflexivity.
Qed.

Lemma rerender_eq m c l r h0 s :
  rerender (component m) c (mounted_fiber m l r h0) s =
  mkState (log (ARender c) (world s)) (<[c := mounted_fiber m l r h0]> (fibers s)).
Proof. destruct m; reflexivity. Qed.

Lemma at_cleanup_eq m c l r h0 s :
  at_cleanup c (mounted_fiber m l r h0) s =
  mkWorld (maps (world s)) (<[r := VNull]> (refs (world s)))
          (disconnect (host_of m h0 r).*1 (nodes (world s)))
          (trace (world s) ++ map (ARemove c) (host_of m h0 r).*1).
Proof.
  destruct m; unfold at_cleanup; cbn;
    unfold remove_node, detach_ref, set_current; cbn;
    rewrite <- ?app_assoc; reflexivity.
Qed.

Lemma unmount_eq m c l r h0 s :
  unmount c (mounted_fiber m l r h0) s =
  mkState (unmount_world m c l r h0 (world s)) (delete c (fibers s)).
Proof.
  unfold unmount. rewrite (at_cleanup_eq m).
  destruct m; unfold unmount_world; cbn;
    unfold detach, setTarget; cbn;
    rewrite <- ?app_assoc; reflexivity.
Qed.

(** * The invariant of a run *)

Lemma Inv_init m : Inv m (init m).
Proof.
  destruct m; split; cbn.
  all: try (intros c f Hc; rewrite lookup_empty in Hc; discriminate).
  all: try (intros c1 c2 f1 f2 h _ Hc; rewrite lookup_empty in Hc; discriminate).
  all: try discriminate; try reflexivity.
  all: repeat constructor.
Qed.

Lemma host_handles m h0 r h :
  h ∈ (host_of m h0 r).*1 ↔ h = h0 ∨ (m = Shared ∧ h = S h0).
Proof.
  destruct m; cbn; rewrite ?elem_of_cons, ?elem_of_nil;
    intuition (discriminate || auto).
Qed.

Lemma new_nodes_connected m w h r :
  h ∈ (host_of m (length (nodes w)) r).*1 →
  ∃ n, (nodes w ++ new_nodes m) !! h = Some n ∧ connected n = true.
Proof.
  rewrite host_handles. intros [-> | [-> ->]].
  - destruct m; cbn; eexists; (split; [apply list_lookup_middle; reflexivity | reflexivity]).
  - cbn. exists (mkNode (Some "map"%string) true). split; [|reflexivity].
    rewrite (lookup_app_r _ _ (S (length (nodes w)))) by lia.
    replace (S (length (nodes w)) - length (nodes w)) with 1 by lia. reflexivity.
Qed.

Lemma is_connected_lt w h : is_connected w h → h < length (nodes w).
Proof. intros (n & Hn & _). eapply lookup_lt_Some, Hn. Qed.

Lemma Inv_mount m c s :
  Inv m s → fibers s !! c = None → Inv m (mount (component m) c s).
Proof.
  intros [Hf Hd Hm Hs] Hc. rewrite mount_eq. split; cbn.
  - intros c' f'. rewrite lookup_insert_Some. intros [[<- <-] | [Hne Hc']].
    + exists (viewer_for m (world s)), (length (refs (world s))), (length (nodes (world s))).
      split; [reflexivity|]. split; [|split].
      * destruct m; cbn.
        -- rewrite length_snoc. lia.
        -- rewrite length_alter, Hs by reflexivity. cbn. lia.
      * intros ->. reflexivity.
      * intros h Hh. apply new_nodes_connected with (r := length (refs (world s))), Hh.
    + destruct (Hf _ _ Hc') as (l & r & h0 & -> & Hl & Hsh & Hcon).
      exists l, r, h0. split; [reflexivity|]. split; [|split]; [|exact Hsh|].
      * destruct m; cbn; [rewrite length_snoc; lia | rewrite length_alter; lia].
      * intros h Hh. destruct (Hcon h Hh) as (n & Hn & Hcn).
        exists n. split; [|exact Hcn]. apply lookup_app_l_Some, Hn.
  - intros c1 c2 f1 f2 h Hne.
    rewrite !lookup_insert_Some.
    intros [[<- <-] | [Hne1 H1]] [[<- <-] | [Hne2 H2]] Hh; try congruence.
    + intros Hh2. destruct (Hf _ _ H2) as (l & r & h0 & -> & _ & _ & Hcon).
      apply Hcon, is_connected_lt in Hh2.
      cbn in Hh. apply host_handles in Hh. lia.
    + intros Hh2. destruct (Hf _ _ H1) as (l & r & h0 & -> & _ & _ & Hcon).
      apply Hcon, is_connected_lt in Hh.
      cbn in Hh2. apply host_handles in Hh2. lia.
    + exact (Hd _ _ _ _ _ Hne H1 H2 Hh).
  - destruct m; cbn.
    + apply Forall_app. split; [exact Hm|]. repeat constructor.
    + apply Forall_alter; [exact Hm|]. intros mp _ Hmp. exact Hmp.
  - intros ->. cbn. rewrite length_alter. apply Hs. reflexivity.
Qed.

Lemma Inv_rerender m c f s :
  Inv m s → fibers s !! c = Some f → Inv m (rerender (component m) c f s).
Proof.
  intros [Hf Hd Hm Hs] Hc.
  destruct (Hf _ _ Hc) as (l & r & h0 & -> & _).
  rewrite rerender_eq, insert_id by exact Hc.
  split; cbn; assumption.
Qed.

Lemma disconnect_other hs ns h :
  h ∉ hs → disconnect hs ns !! h = ns !! h.
Proof.
  unfold disconnect. revert ns.
  induction hs as [|h' hs IH]; intros ns Hh; [reflexivity|].
  cbn. apply not_elem_of_cons in Hh as [Hne Hh].
  rewrite IH by exact Hh. apply list_lookup_alter_ne. congruence.
Qed.

Lemma Inv_unmount m c f s :
  Inv m s → fibers s !! c = Some f → Inv m (unmount c f s).
Proof.
  intros [Hf Hd Hm Hs] Hc.
  destruct (Hf _ _ Hc) as (l & r & h0 & -> & _).
  rewrite unmount_eq. unfold unmount_world. split; cbn.
  - intros c' f'. rewrite lookup_delete_Some. intros [Hne Hc'].
    destruct (Hf _ _ Hc') as (l' & r' & h0' & -> & Hl & Hsh & Hcon).
    exists l', r', h0'. split; [reflexivity|]. split; [|split]; [|exact Hsh|].
    + cbn. rewrite length_alter. exact Hl.
    + intros h Hh. destruct (Hcon h Hh) as (n & Hn & Hcn).
      exists n. split; [|exact Hcn]. unfold is_connected; cbn.
      rewrite disconnect_other; [exact Hn|].
      intros Hin. eapply (Hd c c'); [congruence|exact Hc|exact Hc'|exact Hin|exact Hh].
  - intros c1 c2 f1 f2 h Hne. rewrite !lookup_delete_Some.
    intros [_ H1] [_ H2]. exact (Hd _ _ _ _ _ Hne H1 H2).
  - apply Forall_alter; [exact Hm|]. intros mp _ Hmp. exact Hmp.
  - intros Hsh. rewrite length_alter. apply Hs, Hsh.
Qed.

Lemma Inv_step m s e : Inv m s → Inv m (step m s e).
Proof.
  intros HI. destruct e as [c|c|c]; cbn; destruct (fibers s !! c) as [f|] eqn:Hc;
    auto using Inv_mount, Inv_rerender, Inv_unmount.
Qed.

Lemma run_from_snoc m s es e : run_from m s (es ++ [e]) = step m (run_from m s es) e.
Proof. apply foldl_snoc. Qed.

Lemma run_snoc m es e : run m (es ++ [e]) = step m (run m es) e.
Proof. apply run_from_snoc. Qed.

Lemma run_app m es es' : run m (es ++ es') = run_from m (run m es) es'.
Proof. apply foldl_app. Qed.

Lemma Inv_run_from m s es : Inv m s → Inv m (run_from m s es).
Proof.
  revert s. induction es as [|e es IH]; intros s HI; [exact HI|].
  cbn. apply IH, Inv_step, HI.
Qed.

Lemma Inv_run m es : Inv m (run m es).
Proof. apply Inv_run_from, Inv_init. Qed.

(** * What one step adds to the trace *)

Lemma step_delta m s e :
  Inv m s → ∃ d, trace (world (step m s e)) = trace (world s) ++ d ∧ delta_of m d.
Proof.
  intros HI. destruct e as [c|c|c]; cbn; destruct (fibers s !! c) as [f|] eqn:Hc.
  - exists []. split; [by rewrite app_nil_r | constructor].
  - rewrite mount_eq. eexists. split; [reflexivity|].
    apply delta_mount. intros ->. reflexivity.
  - destruct (inv_fibers _ _ HI _ _ Hc) as (l & r & h0 & -> & _).
    rewrite rerender_eq. eexists. split; [reflexivity | constructor].
  - exists []. split; [by rewrite app_nil_r | constructor].
  - destruct (inv_fibers _ _ HI _ _ Hc) as (l & r & h0 & -> & _ & Hsh & _).
    rewrite unmount_eq. eexists. split; [reflexivity|].
    apply delta_unmount, Hsh.
  - exists []. split; [by rewrite app_nil_r | constructor].
Qed.

Lemma run_trace m es : trace_of m (trace (world (run m es))).
Proof.
  induction es as [|e es IH] using rev_ind; [constructor|].
  rewrite run_snoc.
  destruct (step_delta m (run m es) e (Inv_run m es)) as (d & -> & Hd).
  by constructor.
Qed.

(** * Attach after render *)

Lemma commit_first_app t d : commit_first t → commit_first d → commit_first (t ++ d).
Proof.
  intros Ht Hd i a h Hi Ha. apply lookup_app_Some in Hi as [Hi | [Hle Hi]].
  - destruct (Ht i a h Hi Ha) as (c & j & -> & Hj).
    exists c, j. split; [reflexivity|]. by apply lookup_app_l_Some.
  - destruct (Hd _ a h Hi Ha) as (c & j & Hij & Hj).
    exists c, (length t + j). split; [lia|].
    rewrite lookup_app_r by lia. by replace (length t + j - length t) with j by lia.
Qed.

Lemma commit_first_delta m d : delta_of m d → commit_first d.
Proof.
  intros [|c l r h0 _|c|c l r h0 _] i a h Hi Ha.
  - by rewrite lookup_nil in Hi.
  - destruct m; cbn in Hi.
    + destruct i as [|[|[|i]]]; cbn in Hi; simplify_eq; cbn in Ha; simplify_eq.
      exists c, 1. by split.
    + destruct i as [|[|[|[|i]]]]; cbn in Hi; simplify_eq; cbn in Ha; simplify_eq.
      exists c, 2. by split.
  - destruct i as [|i]; cbn in Hi; simplify_eq; cbn in Ha; simplify_eq.
  - destruct m; cbn in Hi.
    + destruct i as [|[|i]]; cbn in Hi; simplify_eq; cbn in Ha; simplify_eq.
    + destruct i as [|[|[|i]]]; cbn in Hi; simplify_eq; cbn in Ha; simplify_eq.
Qed.

Lemma commit_first_trace m t : trace_of m t → commit_first t.
Proof.
  induction 1 as [|t d _ IH Hd].
  - intros i a h Hi Ha. destruct m; cbn in Hi.
    + by rewrite lookup_nil in Hi.
    + destruct i as [|i]; cbn in Hi; simplify_eq; cbn in Ha; simplify_eq.
  - eauto using commit_first_app, commit_first_delta.
Qed.

(** C1. In either mode and for every sequence of mounts, re-renders and
    unmounts, an action that hands a surface [h] to a viewer (the
    [setTarget] of the shared listing, the [new Map] of the basic one) is
    never the first action of the trace: the action right before it is the
    commit of that very surface [h], so the attach happens after the render
    phase and after the commit, never before. *)
Theorem attach_after_render m es i a h :
  trace (world (run m es)) !! i = Some a →
  attached_by a = Some h →
  ∃ c j, i = S j ∧ trace (world (run m es)) !! j = Some (ACommit c h).
Proof. exact (commit_first_trace m _ (run_trace m es) i a h). Qed.

Lemma attach_after_render_witness :
  trace (world (run Shared [Mount 0])) !! 4 = Some (ASetTarget 0 (VElement 1)) ∧
  attached_by (ASetTarget 0 (VElement 1)) = Some 1 ∧
  ∃ c j, 4 = S j ∧
    trace (world (run Shared [Mount 0])) !! j = Some (ACommit c 1).
Proof.
  split; [reflexivity|]. split; [reflexivity|].
  apply (attach_after_render Shared [Mount 0] 4 (ASetTarget 0 (VElement 1)) 1);
    reflexivity.
Defined.

(** * Counting viewer operations *)

Lemma count_app p t d : count p (t ++ d) = count p t + count p d.
Proof. unfold count. by rewrite List.filter_app, length_app. Qed.

(** ** One shared instance *)

Lemma shared_delta d :
  delta_of Shared d → count is_construct d = 0 ∧ Forall on_shared_viewer d.
Proof.
  intros [|c l r h0 Hl|c|c l r h0 Hl]; cbn; (split; [reflexivity|]);
    repeat constructor; exact (Hl eq_refl).
Qed.

Lemma shared_trace t :
  trace_of Shared t → count is_construct t = 1 ∧ Forall on_shared_viewer t.
Proof.
  induction 1 as [|t d _ [IHc IHf] Hd].
  - split; [reflexivity | by repeat constructor].
  - destruct (shared_delta d Hd) as [Hc Hf].
    rewrite count_app, IHc, Hc. split; [reflexivity|]. by apply Forall_app.
Qed.

(** C2. In shared mode, whatever the sequence of mounts, re-renders and
    unmounts of however many component instances: exactly one map is ever
    constructed (the one built when [OLMapContext] is evaluated), the heap
    holds exactly one map, every viewer operation any instance performs
    addresses that one object, and [useContext(OLMapContext)] returns the
    same reference to every caller. *)
Theorem shared_single_instance es :
  count is_construct (trace (world (run Shared es))) = 1 ∧
  length (maps (world (run Shared es))) = 1 ∧
  Forall on_shared_viewer (trace (world (run Shared es))) ∧
  ∀ f1 w1 f2 w2,
    (useContext OLMapContext f1 w1).1.1 = (useContext OLMapContext f2 w2).1.1.
Proof.
  destruct (shared_trace _ (run_trace Shared es)) as [Hc Hf].
  split; [exact Hc|]. split; [|split; [exact Hf | reflexivity]].
  apply (inv_single _ _ (Inv_run Shared es)). reflexivity.
Qed.

(** ** Re-rendering *)

Lemma rerender_trace m es c :
  trace (world (step m (run m es) (Rerender c))) = trace (world (run m es)) ∨
  trace (world (step m (run m es) (Rerender c))) = trace (world (run m es)) ++ [ARender c].
Proof.
  cbn. destruct (fibers (run m es) !! c) as [f|] eqn:Hc; [|by left].
  destruct (inv_fibers _ _ (Inv_run m es) _ _ Hc) as (l & r & h0 & -> & _).
  rewrite rerender_eq. by right.
Qed.

Lemma run_mount_first m c :
  trace (world (run m [Mount c])) =
  trace (world (init m)) ++
    ARender c :: map (ACommit c) (host_of m (length (nodes (world (init m)))) 0).*1
    ++ [attach_action m (viewer_for m (world (init m)))
                        (surface_of m (length (nodes (world (init m)))))].
Proof.
  unfold run, run_from; cbn -[init].
  replace (fibers (init m) !! c) with (@None Fiber) by (by destruct m).
  rewrite mount_eq. by destruct m.
Qed.

(** C4. Re-rendering a component never adds a viewer operation to the trace,
    from any reachable state and in either mode; in particular, after a mount
    followed by [n] re-renders of the same instance the number of attach
    actions is exactly 1. *)
Theorem no_attach_on_rerender m :
  (∀ es c,
     List.filter is_viewer_op (trace (world (step m (run m es) (Rerender c)))) =
     List.filter is_viewer_op (trace (world (run m es)))) ∧
  (∀ c n,
     count is_attach (trace (world (run m (Mount c :: repeat (Rerender c) n)))) = 1).
Proof.
  split.
  - intros es c. destruct (rerender_trace m es c) as [-> | ->]; [reflexivity|].
    rewrite List.filter_app. cbn. by rewrite app_nil_r.
  - intros c n. induction n as [|n IH].
    + cbn [repeat]. rewrite run_mount_first. by destruct m.
    + cbn [repeat]. rewrite repeat_cons, app_comm_cons, run_snoc.
      destruct (rerender_trace m (Mount c :: repeat (Rerender c) n) c) as [-> | ->];
        [exact IH|].
      rewrite count_app, IH. reflexivity.
Qed.

(** ** The holder's instance *)

(** C5. Evaluating [OLMapContext] in any world allocates one map whose target
    is [undefined] (no [target] key in the options), with one OSM tile layer
    and a view centred at (0, 0) with zoom 2, all given in the one constructor
    call; this is the state of the shared viewer when the application starts. *)
Theorem holder_constructed_detached w :
  maps (load_OLMapContext w).2 !! defaultValue (load_OLMapContext w).1 =
    Some (mkMap VUndefined [TileLayer OSM] (mkView (0%Z, 0%Z) 2%Z) false) ∧
  trace (load_OLMapContext w).2 =
    trace w ++ [AConstruct (defaultValue (load_OLMapContext w).1)
                  (mkOptions VUndefined [TileLayer OSM] (mkView (0%Z, 0%Z) 2%Z))] ∧
  maps (world (init Shared)) !! defaultValue OLMapContext =
    Some (mkMap VUndefined [TileLayer OSM] (mkView (0%Z, 0%Z) 2%Z) false).
Proof.
  split; [|split]; cbn; try reflexivity.
  apply list_lookup_middle. reflexivity.
Qed.

(** ** Frame *)

Lemma writes_only_target_delta d : delta_of Shared d → Forall writes_only_target d.
Proof.
  intros [|c l r h0 Hl|c|c l r h0 Hl]; cbn; repeat constructor; exact (Hl eq_refl).
Qed.

Lemma writes_only_target_trace t :
  trace_of Shared t →
  ∃ t', t = AConstruct (defaultValue OLMapContext)
              (mkOptions VUndefined [TileLayer OSM] (mkView (0%Z, 0%Z) 2%Z)) :: t' ∧
        Forall writes_only_target t'.
Proof.
  induction 1 as [|t d _ (t' & -> & IH) Hd].
  - exists []. split; [reflexivity | constructor].
  - exists (t' ++ d). split; [reflexivity|].
    apply Forall_app. split; [exact IH | by apply writes_only_target_delta].
Qed.

(** C8. In shared mode, after any sequence of mounts, re-renders and
    unmounts, the shared viewer still has the layer list and the view (centre
    and zoom) it was constructed with and is not disposed; only its target may
    differ.  The trace is the construction followed by actions none of which
    constructs or disposes a viewer, and whose only viewer operation is
    [setTarget] on the shared instance. *)
Theorem shared_frame es :
  ∃ mp0 mp t',
    maps (world (init Shared)) !! defaultValue OLMapContext = Some mp0 ∧
    maps (world (run Shared es)) !! defaultValue OLMapContext = Some mp ∧
    layers mp = layers mp0 ∧
    center (view mp) = center (view mp0) ∧
    zoom (view mp) = zoom (view mp0) ∧
    disposed mp = disposed mp0 ∧
    mp = with_target (target mp) mp0 ∧
    trace (world (run Shared es)) =
      AConstruct (defaultValue OLMapContext)
        (mkOptions (target mp0) (layers mp0) (view mp0)) :: t' ∧
    Forall writes_only_target t'.
Proof.
  pose proof (Inv_run Shared es) as HI.
  pose proof (inv_single _ _ HI eq_refl) as Hlen.
  pose proof (inv_maps _ _ HI) as Hgood.
  destruct (writes_only_target_trace _ (run_trace Shared es)) as (t' & Ht & Hf).
  destruct (maps (world (run Shared es))) as [|mp [|? ?]] eqn:Hm; try discriminate.
  apply Forall_cons in Hgood as [(Hl & Hv & Hdis) _].
  destruct mp as [tg ls vw ds]; cbn in *; subst.
  eexists _, _, t'. split; [reflexivity|].
  split; [reflexivity|]. cbn. repeat split; try reflexivity; assumption.
Qed.

(** * The ref is read without a guard *)

Lemma passes_no_null_trace m t : trace_of m t → Forall passes_no_null t.
Proof.
  induction 1 as [|t d _ IH Hd].
  - destruct m; by repeat constructor.
  - apply Forall_app. split; [exact IH|].
    destruct Hd, m; cbn; by repeat constructor.
Qed.

(** C9. The effect of the shared listing passes [mapRef.current] to
    [setTarget] as it is: if the ref holds the committed element [h], the call
    is [setTarget(h)], not [setTarget(null)]; were the ref still [null], the
    call would be [setTarget(null)], since the [!] is no run-time check.  In a
    run, where the framework sets the ref at commit and runs the effect after
    it, no [setTarget(null)] ever occurs. *)
Theorem attach_never_null olMap mapRef w h :
  refs w !! mapRef = Some (VElement h) →
  trace (Better.effect olMap mapRef w).1 = trace w ++ [ASetTarget olMap (VElement h)] ∧
  (∀ w0, refs w0 !! mapRef = Some VNull →
         trace (Better.effect olMap mapRef w0).1 = trace w0 ++ [ASetTarget olMap VNull]) ∧
  (∀ es l, ASetTarget l VNull ∉ trace (world (run Shared es))).
Proof.
  intros Hr. split; [|split].
  - unfold Better.effect, non_null_assertion, current. cbn. by rewrite Hr.
  - intros w0 H0. unfold Better.effect, non_null_assertion, current. cbn. by rewrite H0.
  - intros es l Hin.
    pose proof (passes_no_null_trace _ _ (run_trace Shared es)) as Hf.
    rewrite Forall_forall in Hf. exact (Hf _ Hin).
Qed.

Lemma attach_never_null_witness :
  refs (world (run Shared [Mount 0])) !! 0 = Some (VElement 1) ∧
  trace (Better.effect 0 0 (world (run Shared [Mount 0]))).1 =
    trace (world (run Shared [Mount 0])) ++ [ASetTarget 0 (VElement 1)].
Proof.
  split; [reflexivity|].
  apply (attach_never_null 0 0 (world (run Shared [Mount 0])) 1). reflexivity.
Defined.

(** * Both listings describe the same map *)

Lemma constructs_same_trace m t : trace_of m t → Forall constructs_same t.
Proof.
  induction 1 as [|t d _ IH Hd].
  - destruct m; by repeat constructor.
  - apply Forall_app. split; [exact IH|].
    destruct Hd, m; cbn; by repeat constructor.
Qed.

(** C10. A map in the heap of a private-mode run and the shared map of a
    shared-mode run have the same layers and the same view: one OSM tile
    layer, centre (0, 0), zoom 2.  The same holds of the options of every
    [new Map] call in either mode; the two listings differ in the target
    only. *)
Theorem same_map_description es es' k mp mp' :
  maps (world (run Shared es)) !! defaultValue OLMapContext = Some mp →
  maps (world (run Private es')) !! k = Some mp' →
  layers mp = layers mp' ∧ view mp = view mp' ∧
  layers mp = [TileLayer OSM] ∧ center (view mp) = (0%Z, 0%Z) ∧ zoom (view mp) = 2%Z ∧
  (∀ m es'' l o, AConstruct l o ∈ trace (world (run m es'')) →
     o_layers o = [TileLayer OSM] ∧ center (o_view o) = (0%Z, 0%Z) ∧ zoom (o_view o) = 2%Z).
Proof.
  intros Hs Hp.
  destruct (Forall_lookup_1 _ _ _ _ (inv_maps _ _ (Inv_run Shared es)) Hs) as (Hl & Hv & _).
  destruct (Forall_lookup_1 _ _ _ _ (inv_maps _ _ (Inv_run Private es')) Hp) as (Hl' & Hv' & _).
  rewrite Hl, Hl', Hv, Hv'.
  do 5 (split; [reflexivity|]).
  intros m es'' l o Hin.
  pose proof (constructs_same_trace _ _ (run_trace m es'')) as Hf.
  rewrite Forall_forall in Hf. destruct (Hf _ Hin) as [Ho Hw]. cbn in Ho, Hw.
  by rewrite Ho, Hw.
Qed.

Lemma same_map_description_witness :
  maps (world (run Shared [])) !! defaultValue OLMapContext =
    Some (mkMap VUndefined [TileLayer OSM] (mkView (0%Z, 0%Z) 2%Z) false) ∧
  maps (world (run Private [Mount 0])) !! 0 =
    Some (mkMap (VElement 0) [TileLayer OSM] (mkView (0%Z, 0%Z) 2%Z) false) ∧
  layers (mkMap VUndefined [TileLayer OSM] (mkView (0%Z, 0%Z) 2%Z) false) =
  layers (mkMap (VElement 0) [TileLayer OSM] (mkView (0%Z, 0%Z) 2%Z) false) ∧
  view (mkMap VUndefined [TileLayer OSM] (mkView (0%Z, 0%Z) 2%Z) false) =
  view (mkMap (VElement 0) [TileLayer OSM] (mkView (0%Z, 0%Z) 2%Z) false).
Proof.
  split; [reflexivity|]. split; [reflexivity|].
  destruct (same_map_description [] [Mount 0] 0
              (mkMap VUndefined [TileLayer OSM] (mkView (0%Z, 0%Z) 2%Z) false)
              (mkMap (VElement 0) [TileLayer OSM] (mkView (0%Z, 0%Z) 2%Z) false)
              eq_refl eq_refl) as (H1 & H2 & _).
  exact (conj H1 H2).
Defined.

(** * Detach on unmount *)

Lemma mounted_fiber_inj m l r h0 l' r' h0' :
  mounted_fiber m l r h0 = mounted_fiber m l' r' h0' → l = l' ∧ r = r' ∧ h0 = h0'.
Proof.
  intros H.
  assert (Hd : destroy (mounted_fiber m l r h0) = destroy (mounted_fiber m l' r' h0'))
    by (by rewrite H).
  assert (Hr : hook_ref (mounted_fiber m l r h0) = hook_ref (mounted_fiber m l' r' h0'))
    by (by rewrite H).
  assert (Hh : host (mounted_fiber m l r h0) = host (mounted_fiber m l' r' h0'))
    by (by rewrite H).
  cbn in Hd, Hr, Hh. injection Hd as Hd. injection Hr as ->.
  apply (f_equal (fun d => trace (d empty_world))) in Hd. cbn in Hd.
  injection Hd as ->. destruct m; cbn in Hh; by injection Hh as ->.
Qed.

Lemma fiber_kept m c f es s :
  Inv m s → fibers s !! c = Some f → Unmount c ∉ es →
  fibers (run_from m s es) !! c = Some f.
Proof.
  revert s. induction es as [|e es IH]; intros s HI Hc Hn; [exact Hc|].
  apply not_elem_of_cons in Hn as [Hne Hn].
  cbn. apply IH; [by apply Inv_step| |exact Hn].
  destruct e as [c'|c'|c']; cbn.
  - destruct (fibers s !! c') as [f'|] eqn:Hc'; [exact Hc|].
    rewrite mount_eq; cbn. rewrite lookup_insert_ne; [exact Hc|congruence].
  - destruct (fibers s !! c') as [f'|] eqn:Hc'; [|exact Hc].
    destruct (inv_fibers _ _ HI _ _ Hc') as (l & r & h0 & -> & _).
    rewrite rerender_eq; cbn. by rewrite insert_id.
  - destruct (fibers s !! c') as [f'|] eqn:Hc'; [|exact Hc].
    destruct (inv_fibers _ _ HI _ _ Hc') as (l & r & h0 & -> & _).
    rewrite unmount_eq; cbn. rewrite lookup_delete_ne; [exact Hc|congruence].
Qed.

Lemma disconnect_in hs ns h n :
  h ∈ hs → disconnect hs ns !! h = Some n → connected n = false.
Proof.
  intros Hin. unfold disconnect.
  assert (H : h ∈ hs ∨ ∀ n, ns !! h = Some n → connected n = false) by (by left).
  clear Hin. revert ns n H.
  induction hs as [|h' hs IH]; intros ns n [Hin | Hoff]; cbn.
  - by apply elem_of_nil in Hin.
  - apply Hoff.
  - apply IH. destruct (decide (h = h')) as [->|Hne].
    + right. intros n'. rewrite list_lookup_alter_eq.
      intros Hn'. by apply fmap_Some in Hn' as (n0 & _ & ->).
    + left. apply elem_of_cons in Hin as [?|?]; [congruence|done].
  - apply IH. right. intros n'. destruct (decide (h = h')) as [->|Hne].
    + rewrite list_lookup_alter_eq.
      intros Hn'. by apply fmap_Some in Hn' as (n0 & _ & ->).
    + rewrite list_lookup_alter_ne by congruence. apply Hoff.
Qed.

Lemma length_disconnect hs ns : length (disconnect hs ns) = length ns.
Proof.
  unfold disconnect. revert ns. induction hs as [|h hs IH]; intros ns; [reflexivity|].
  cbn. by rewrite IH, length_alter.
Qed.

Lemma surface_in_host m l r h0 :
  surface_of m h0 ∈ (host (mounted_fiber m l r h0)).*1.
Proof. destruct m; cbn; rewrite ?elem_of_cons; auto. Qed.

Lemma target_after_setTarget w l v mp :
  maps w !! l = Some mp → maps (setTarget l v w) !! l = Some (with_target v mp).
Proof.
  intros H. unfold setTarget. cbn [maps].
  rewrite list_lookup_alter_eq, H. reflexivity.
Qed.

(** Induction over the runs of a mode, one case per kind of step that does
    something. *)
Lemma run_ind m (P : State → Prop) :
  P (init m) →
  (∀ s c, Inv m s → P s → fibers s !! c = None →
     P (mkState (mount_world m c (world s))
          (<[c := mounted_fiber m (viewer_for m (world s))
                    (length (refs (world s))) (length (nodes (world s)))]>
             (fibers s)))) →
  (∀ s c l r h0, Inv m s → P s → fibers s !! c = Some (mounted_fiber m l r h0) →
     P (mkState (log (ARender c) (world s)) (fibers s))) →
  (∀ s c l r h0, Inv m s → P s → fibers s !! c = Some (mounted_fiber m l r h0) →
     P (mkState (unmount_world m c l r h0 (world s)) (delete c (fibers s)))) →
  ∀ es, P (run m es).
Proof.
  intros Hinit Hmount Hrender Hunmount es.
  induction es as [|e es IH] using rev_ind; [exact Hinit|].
  rewrite run_snoc. pose proof (Inv_run m es) as HI.
  destruct e as [c|c|c]; cbn; destruct (fibers (run m es) !! c) as [f|] eqn:Hc;
    try exact IH.
  - rewrite mount_eq. by apply Hmount.
  - destruct (inv_fibers _ _ HI _ _ Hc) as (l & r & h0 & -> & _).
    rewrite rerender_eq, insert_id by exact Hc. by eapply Hrender.
  - destruct (inv_fibers _ _ HI _ _ Hc) as (l & r & h0 & -> & _).
    rewrite unmount_eq. by eapply Hunmount.
Qed.

Lemma refs_bound_run m es : refs_bound m (run m es).
Proof.
  apply run_ind; clear es.
  - split; destruct m; cbn; intros *; rewrite lookup_empty; discriminate.
  - intros s c HI [IHr IHi] Hc. split; cbn [world fibers].
    + intros c' l r h0. rewrite lookup_insert_Some.
      intros [[<- Heq] | [Hne Hc']].
      * apply mounted_fiber_inj in Heq as (_ & <- & <-).
        unfold mount_world; cbn [refs]. apply lookup_snoc_new.
      * unfold mount_world; cbn [refs]. apply lookup_app_l_Some. eapply IHr, Hc'.
    + intros c1 c2 l1 l2 r h1 h2. rewrite !lookup_insert_Some.
      intros [[<- Heq1] | [Hne1 H1]] [[<- Heq2] | [Hne2 H2]]; try reflexivity.
      * apply mounted_fiber_inj in Heq1 as (_ & <- & _).
        apply IHr, lookup_lt_Some in H2. lia.
      * apply mounted_fiber_inj in Heq2 as (_ & <- & _).
        apply IHr, lookup_lt_Some in H1. lia.
      * eapply IHi; eassumption.
  - intros s c l r h0 _ IH _. exact IH.
  - intros s c lc rc hc HI [IHr IHi] Hc. split; cbn [world fibers].
    + intros c' l r h0. rewrite lookup_delete_Some. intros [Hne Hc'].
      unfold unmount_world; cbn [refs].
      rewrite list_lookup_insert_ne; [eapply IHr, Hc'|].
      intros <-. apply Hne. eapply IHi; eassumption.
    + intros c1 c2 l1 l2 r h1 h2. rewrite !lookup_delete_Some.
      intros [_ H1] [_ H2]. eapply IHi; eassumption.
Qed.

(** C3, as the code has it.  Take any run in which instance [c] is not
    mounted, mount it, let any events follow except an unmount of [c], and
    then unmount [c].  The mount ended with the attach of a viewer [l] to a
    surface [h]; up to the unmount [h] is in the document and is what the ref
    of [c] holds.  The unmount first clears the ref and removes the nodes of
    [c]; the cleanup is called after that, with [h] out of the document and
    the ref [null], and makes exactly one call, [l.setTarget(undefined)], on
    the same viewer [l], the last action of the unmount.  Afterwards the
    viewer has no target, [c] is unmounted, and a second unmount of [c] does
    nothing. *)
Theorem detach_on_unmount m es c es' :
  fibers (run m es) !! c = None →
  Unmount c ∉ es' →
  ∃ l h f r,
    last (trace (world (step m (run m es) (Mount c)))) = Some (attach_action m l h) ∧
    fibers (run m (es ++ Mount c :: es')) !! c = Some f ∧
    surface f = Some h ∧
    h ∈ (host f).*1 ∧
    hook_ref f = Some r ∧
    is_connected (world (run m (es ++ Mount c :: es'))) h ∧
    current r (world (run m (es ++ Mount c :: es'))) = VElement h ∧
    trace (at_cleanup c f (run m (es ++ Mount c :: es'))) =
      trace (world (run m (es ++ Mount c :: es'))) ++ map (ARemove c) (host f).*1 ∧
    ¬ is_connected (at_cleanup c f (run m (es ++ Mount c :: es'))) h ∧
    current r (at_cleanup c f (run m (es ++ Mount c :: es'))) = VNull ∧
    trace (world (step m (run m (es ++ Mount c :: es')) (Unmount c))) =
      trace (at_cleanup c f (run m (es ++ Mount c :: es')))
        ++ [ASetTarget l VUndefined] ∧
    target <$> (maps (world (step m (run m (es ++ Mount c :: es')) (Unmount c))) !! l)
      = Some VUndefined ∧
    ¬ is_connected (world (step m (run m (es ++ Mount c :: es')) (Unmount c))) h ∧
    fibers (step m (run m (es ++ Mount c :: es')) (Unmount c)) !! c = None ∧
    step m (step m (run m (es ++ Mount c :: es')) (Unmount c)) (Unmount c) =
      step m (run m (es ++ Mount c :: es')) (Unmount c).
Proof.
  intros Hc Hn.
  set (s0 := run m es) in *.
  set (l := viewer_for m (world s0)).
  set (r := length (refs (world s0))).
  set (h0 := length (nodes (world s0))).
  assert (Hs1 : step m s0 (Mount c) =
                mkState (mount_world m c (world s0))
                        (<[c := mounted_fiber m l r h0]> (fibers s0))).
  { cbn. rewrite Hc. apply mount_eq. }
  assert (Hf : fibers (run m (es ++ Mount c :: es')) !! c = Some (mounted_fiber m l r h0)).
  { rewrite run_app.
    change (run_from m (run m es) (Mount c :: es'))
      with (run_from m (step m s0 (Mount c)) es').
    apply fiber_kept; [apply Inv_step, Inv_run | | exact Hn].
    rewrite Hs1. cbn. apply lookup_insert_eq. }
  pose proof (Inv_run m (es ++ Mount c :: es')) as HI.
  destruct (refs_bound_run m (es ++ Mount c :: es')) as [Hrefs _].
  remember (run m (es ++ Mount c :: es')) as s1 eqn:Es1. clear Es1.
  destruct (inv_fibers _ _ HI _ _ Hf) as (l' & r' & h0' & Heq & Hl & _ & Hcon).
  apply mounted_fiber_inj in Heq as (<- & <- & <-).
  pose proof (surface_in_host m l r h0) as Hin.
  pose proof (Hrefs _ _ _ _ Hf) as Hr.
  apply lookup_lt_is_Some in Hl as [mp Hmp].
  assert (Hs2 : step m s1 (Unmount c) =
                mkState (unmount_world m c l r h0 (world s1)) (delete c (fibers s1))).
  { cbn -[unmount]. rewrite Hf. apply unmount_eq. }
  exists l, (surface_of m h0), (mounted_fiber m l r h0), r.
  rewrite Hs2, (at_cleanup_eq m). cbn [world fibers].
  split; [rewrite Hs1; unfold mount_world; cbn; rewrite last_app; by destruct m|].
  split; [exact Hf|].
  split; [apply surface_mounted|].
  split; [exact Hin|].
  split; [reflexivity|].
  split; [exact (Hcon _ Hin)|].
  split; [unfold current; by rewrite Hr|].
  split; [reflexivity|].
  split.
  { intros (n & Hn' & Hcn). cbn [nodes] in Hn'.
    apply disconnect_in in Hn'; [congruence | exact Hin]. }
  split.
  { unfold current; cbn [refs].
    rewrite list_lookup_insert_eq; [reflexivity|]. eapply lookup_lt_Some, Hr. }
  split; [unfold unmount_world; cbn [trace]; by rewrite app_assoc|].
  split.
  { unfold unmount_world; cbn [maps]. by rewrite list_lookup_alter_eq, Hmp. }
  split.
  { intros (n & Hn' & Hcn). unfold unmount_world in Hn'; cbn [nodes] in Hn'.
    apply disconnect_in in Hn'; [congruence | exact Hin]. }
  split; [apply lookup_delete_eq|].
  cbn -[unmount]. by rewrite lookup_delete_eq.
Qed.

Lemma detach_on_unmount_witness :
  (fibers (run Shared []) !! 0 = None) ∧
  (Unmount 0 ∉ [Rerender 0; Mount 1]) ∧
  ∃ l h f,
    fibers (run Shared ([] ++ Mount 0 :: [Rerender 0; Mount 1])) !! 0 = Some f ∧
    surface f = Some h ∧
    ¬ is_connected (at_cleanup 0 f (run Shared ([] ++ Mount 0 :: [Rerender 0; Mount 1]))) h ∧
    trace (world (step Shared (run Shared ([] ++ Mount 0 :: [Rerender 0; Mount 1]))
                    (Unmount 0))) =
      trace (at_cleanup 0 f (run Shared ([] ++ Mount 0 :: [Rerender 0; Mount 1])))
        ++ [ASetTarget l VUndefined].
Proof.
  assert (H1 : fibers (run Shared []) !! 0 = None) by reflexivity.
  assert (H2 : Unmount 0 ∉ [Rerender 0; Mount 1])
    by (apply (bool_decide_unpack _); vm_compute; exact I).
  split; [exact H1|]. split; [exact H2|].
  destruct (detach_on_unmount Shared [] 0 [Rerender 0; Mount 1] H1 H2)
    as (l & h & f & r & _ & Hf & Hs & _ & _ & _ & _ & _ & Hnc & _ & Ht & _).
  exists l, h, f. split; [exact Hf|]. split; [exact Hs|]. split; [exact Hnc | exact Ht].
Defined.

(** C3 as the specification words it fails.  Mount one instance in shared
    mode: its surface, node 1, is in the document and is what the ref holds.
    When the cleanup of its unmount is called, node 1 is out of the document
    already and the ref is [null]; in the trace of the whole run the
    [setTarget(undefined)] comes after the removal of the surface, not before
    it. *)
Lemma detach_after_surface_removed :
  fibers (run Shared [Mount 0]) !! 0 = Some (mounted_fiber Shared 0 0 0) ∧
  surface (mounted_fiber Shared 0 0 0) = Some 1 ∧
  is_connected (world (run Shared [Mount 0])) 1 ∧
  ¬ is_connected (at_cleanup 0 (mounted_fiber Shared 0 0 0) (run Shared [Mount 0])) 1 ∧
  current 0 (at_cleanup 0 (mounted_fiber Shared 0 0 0) (run Shared [Mount 0])) = VNull ∧
  trace (world (run Shared [Mount 0; Unmount 0])) =
    [AConstruct 0 (mkOptions VUndefined [TileLayer OSM] (mkView (0%Z, 0%Z) 2%Z));
     ARender 0; ACommit 0 0; ACommit 0 1; ASetTarget 0 (VElement 1);
     ARemove 0 0; ARemove 0 1; ASetTarget 0 VUndefined].
Proof.
  split; [reflexivity|]. split; [reflexivity|].
  split; [by eexists; split; reflexivity|].
  split; [|split; reflexivity].
  intros (n & Hn & Hcn). vm_compute in Hn. injection Hn as <-. discriminate.
Qed.

(** * Private mode: the viewer is detached, not disposed *)

Lemma never_disposes_trace m t : trace_of m t → Forall never_disposes t.
Proof.
  induction 1 as [|t d _ IH Hd].
  - destruct m; by repeat constructor.
  - apply Forall_app. split; [exact IH|].
    destruct Hd, m; cbn; by repeat constructor.
Qed.

(** C6, as the code has it.  In private mode, mounting an instance [c] that
    is not mounted renders, commits the surface [h], and then, in the effect,
    constructs a fresh viewer [l] with [h] as its target.  Unmounting it
    removes the surface and calls [l.setTarget(undefined)]: the viewer stays
    in the heap, with its layers and view, its target cleared and not
    disposed.  No run, in either mode, ever disposes a viewer. *)
Theorem private_detach_only es c :
  fibers (run Private es) !! c = None →
  maps (world (run Private es)) !! length (maps (world (run Private es))) = None ∧
  trace (world (step Private (run Private es) (Mount c))) =
    trace (world (run Private es)) ++
      [ARender c;
       ACommit c (length (nodes (world (run Private es))));
       AConstruct (length (maps (world (run Private es))))
         (mkOptions (VElement (length (nodes (world (run Private es)))))
                    [TileLayer OSM] (mkView (0%Z, 0%Z) 2%Z))] ∧
  maps (world (step Private (run Private es) (Mount c)))
    !! length (maps (world (run Private es))) =
    Some (mkMap (VElement (length (nodes (world (run Private es)))))
                [TileLayer OSM] (mkView (0%Z, 0%Z) 2%Z) false) ∧
  trace (world (step Private (step Private (run Private es) (Mount c)) (Unmount c))) =
    trace (world (step Private (run Private es) (Mount c))) ++
      [ARemove c (length (nodes (world (run Private es))));
       ASetTarget (length (maps (world (run Private es)))) VUndefined] ∧
  maps (world (step Private (step Private (run Private es) (Mount c)) (Unmount c)))
    !! length (maps (world (run Private es))) =
    Some (mkMap VUndefined [TileLayer OSM] (mkView (0%Z, 0%Z) 2%Z) false) ∧
  (∀ m es' k, ADispose k ∉ trace (world (run m es'))).
Proof.
  intros Hc. set (s0 := run Private es) in *.
  assert (Hs1 : step Private s0 (Mount c) =
                mkState (mount_world Private c (world s0))
                  (<[c := mounted_fiber Private (length (maps (world s0)))
                            (length (refs (world s0))) (length (nodes (world s0)))]>
                     (fibers s0))).
  { cbn -[component]. rewrite Hc. apply (mount_eq Private). }
  rewrite Hs1.
  assert (Hs2 : ∀ w fs,
    step Private (mkState w (<[c := mounted_fiber Private (length (maps (world s0)))
                            (length (refs (world s0))) (length (nodes (world s0)))]> fs))
         (Unmount c) =
    mkState (unmount_world Private c (length (maps (world s0)))
               (length (refs (world s0))) (length (nodes (world s0))) w)
            (delete c (<[c := mounted_fiber Private (length (maps (world s0)))
                            (length (refs (world s0))) (length (nodes (world s0)))]> fs))).
  { intros w fs. cbn -[mounted_fiber unmount]. rewrite lookup_insert_eq.
    apply unmount_eq. }
  rewrite Hs2. unfold mount_world, unmount_world. cbn.
  split; [apply lookup_ge_None; lia|].
  split; [reflexivity|].
  split; [apply list_lookup_middle; reflexivity|].
  split; [by rewrite <- app_assoc|].
  split.
  - rewrite alter_snoc. apply list_lookup_middle. reflexivity.
  - intros m es' k Hin.
    pose proof (never_disposes_trace _ _ (run_trace m es')) as Hf.
    rewrite Forall_forall in Hf. exact (Hf _ Hin).
Qed.

Lemma private_detach_only_witness :
  fibers (run Private [Mount 0]) !! 1 = None ∧
  maps (world (step Private (step Private (run Private [Mount 0]) (Mount 1)) (Unmount 1)))
    !! length (maps (world (run Private [Mount 0]))) =
    Some (mkMap VUndefined [TileLayer OSM] (mkView (0%Z, 0%Z) 2%Z) false).
Proof.
  split; [reflexivity|].
  apply (private_detach_only [Mount 0] 1). reflexivity.
Defined.

(** What a teardown would look like: had a cleanup called [dispose], the
    viewer would be torn down. *)
Lemma dispose_torn_down w l mp : maps w !! l = Some mp → torn_down (dispose l w) l.
Proof.
  intros H. exists (mkMap VNull (layers mp) (view mp) true). split; [|reflexivity].
  unfold dispose. cbn [maps]. rewrite list_lookup_alter_eq, H. reflexivity.
Qed.

(** C6 as the specification words it fails: after a mount and an unmount in
    private mode the viewer of that mount is still in the heap, with its layer
    and view, and is not disposed; no dispose was ever called. *)
Lemma private_unmount_keeps_viewer :
  maps (world (run Private [Mount 0; Unmount 0])) !! 0 =
    Some (mkMap VUndefined [TileLayer OSM] (mkView (0%Z, 0%Z) 2%Z) false) ∧
  trace (world (run Private [Mount 0; Unmount 0])) =
    [ARender 0; ACommit 0 0;
     AConstruct 0 (mkOptions (VElement 0) [TileLayer OSM] (mkView (0%Z, 0%Z) 2%Z));
     ARemove 0 0; ASetTarget 0 VUndefined] ∧
  ¬ torn_down (world (run Private [Mount 0; Unmount 0])) 0.
Proof.
  split; [reflexivity|]. split; [reflexivity|].
  intros (mp & Hmp & Hd). vm_compute in Hmp. injection Hmp as <-. discriminate.
Qed.

(** * Re-attaching across remounts *)

(** C7. In shared mode, from any reachable state in which neither [a] nor
    [b] is mounted (they may be the same site): after mounting [a] the shared
    viewer's target is the surface of [a]; after then unmounting [a] and
    mounting [b], its target is the surface of [b], a different node, which is
    in the document, while the surface of [a] no longer is.  A map has one
    target field: of two [setTarget] calls in a row the second one stands. *)
Theorem reattach_across_remounts es a b :
  fibers (run Shared es) !! a = None →
  fibers (run Shared es) !! b = None →
  ∃ fa fb ha hb,
    fibers (run_from Shared (run Shared es) [Mount a]) !! a = Some fa ∧
    surface fa = Some ha ∧
    fibers (run_from Shared (run Shared es) [Mount a; Unmount a; Mount b]) !! b = Some fb ∧
    surface fb = Some hb ∧
    target <$> (maps (world (run_from Shared (run Shared es) [Mount a]))
                  !! defaultValue OLMapContext) = Some (VElement ha) ∧
    target <$> (maps (world (run_from Shared (run Shared es) [Mount a; Unmount a]))
                  !! defaultValue OLMapContext) = Some VUndefined ∧
    target <$> (maps (world (run_from Shared (run Shared es) [Mount a; Unmount a; Mount b]))
                  !! defaultValue OLMapContext) = Some (VElement hb) ∧
    hb ≠ ha ∧
    is_connected (world (run_from Shared (run Shared es) [Mount a; Unmount a; Mount b])) hb ∧
    ¬ is_connected (world (run_from Shared (run Shared es) [Mount a; Unmount a; Mount b])) ha ∧
    (∀ w l v1 v2 mp, maps w !! l = Some mp →
       maps (setTarget l v2 (setTarget l v1 w)) !! l = Some (with_target v2 mp)).
Proof.
  intros Ha Hb. pose proof (Inv_run Shared es) as HI.
  pose proof (inv_single _ _ HI eq_refl) as Hlen.
  set (s0 := run Shared es) in *.
  set (r := length (refs (world s0))). set (h0 := length (nodes (world s0))).
  set (fa := mounted_fiber Shared shared_viewer r h0).
  assert (Hs1 : run_from Shared s0 [Mount a] =
                mkState (mount_world Shared a (world s0)) (<[a := fa]> (fibers s0))).
  { cbn -[component]. rewrite Ha. apply (mount_eq Shared). }
  set (w1 := mount_world Shared a (world s0)) in *.
  assert (Hs2 : run_from Shared s0 [Mount a; Unmount a] =
                mkState (unmount_world Shared a shared_viewer r h0 w1)
                        (delete a (<[a := fa]> (fibers s0)))).
  { change (run_from Shared s0 [Mount a; Unmount a])
      with (step Shared (run_from Shared s0 [Mount a]) (Unmount a)).
    rewrite Hs1. cbn -[unmount fa]. rewrite lookup_insert_eq. apply unmount_eq. }
  set (w2 := unmount_world Shared a shared_viewer r h0 w1) in *.
  set (fb := mounted_fiber Shared shared_viewer (length (refs w2)) (length (nodes w2))).
  assert (Hb2 : delete a (<[a := fa]> (fibers s0)) !! b = None).
  { destruct (decide (a = b)) as [->|Hne]; [apply lookup_delete_eq|].
    by rewrite lookup_delete_ne, lookup_insert_ne. }
  assert (Hs3 : run_from Shared s0 [Mount a; Unmount a; Mount b] =
                mkState (mount_world Shared b w2)
                        (<[b := fb]> (delete a (<[a := fa]> (fibers s0))))).
  { change (run_from Shared s0 [Mount a; Unmount a; Mount b])
      with (step Shared (run_from Shared s0 [Mount a; Unmount a]) (Mount b)).
    rewrite Hs2. cbn -[component]. rewrite Hb2. apply (mount_eq Shared). }
  destruct (maps (world s0)) as [|mp0 [|? ?]] eqn:Hm; try discriminate.
  assert (Hn2 : length (nodes w2) = S (S h0)).
  { unfold w2, unmount_world; cbn -[disconnect]. rewrite length_disconnect.
    unfold w1, mount_world; cbn. rewrite length_app. cbn. unfold h0. lia. }
  exists fa, fb, (S h0), (S (length (nodes w2))).
  rewrite Hs1, Hs2, Hs3. cbn [world fibers].
  split; [apply lookup_insert_eq|].
  split; [apply (surface_mounted Shared)|].
  split; [apply lookup_insert_eq|].
  split; [apply (surface_mounted Shared)|].
  split; [unfold w1, mount_world; cbn; by rewrite Hm|].
  split; [unfold w2, unmount_world, w1, mount_world; cbn; by rewrite Hm|].
  split; [unfold mount_world, w2, unmount_world, w1, mount_world; cbn; by rewrite Hm|].
  split; [lia|].
  split.
  - apply (new_nodes_connected Shared w2 _ (length (refs w2))).
    apply host_handles. right. by split.
  - split.
    + intros (n & Hn & Hcn). unfold mount_world in Hn; cbn [nodes] in Hn.
      rewrite lookup_app_l in Hn by lia.
      unfold w2, unmount_world in Hn; cbn [nodes] in Hn.
      apply disconnect_in in Hn; [congruence|].
      apply host_handles. right. by split.
    + intros w l v1 v2 mp Hmp.
      rewrite (target_after_setTarget _ _ _ _ (target_after_setTarget _ _ v1 _ Hmp)).
      reflexivity.
Qed.

Lemma reattach_across_remounts_witness :
  fibers (run Shared [Mount 0]) !! 1 = None ∧
  fibers (run Shared [Mount 0]) !! 2 = None ∧
  ∃ ha hb,
    target <$> (maps (world (run_from Shared (run Shared [Mount 0])
                               [Mount 1; Unmount 1; Mount 2]))
                  !! defaultValue OLMapContext) = Some (VElement hb) ∧
    hb ≠ ha.
Proof.
  assert (H1 : fibers (run Shared [Mount 0]) !! 1 = None) by reflexivity.
  assert (H2 : fibers (run Shared [Mount 0]) !! 2 = None) by reflexivity.
  split; [exact H1|]. split; [exact H2|].
  destruct (reattach_across_remounts [Mount 0] 1 2 H1 H2)
    as (fa & fb & ha & hb & _ & _ & _ & _ & _ & _ & Ht & Hne & _).
  exists ha, hb. split; [exact Ht | exact Hne].
Defined.

(** * Beyond the specification: ownership and balance *)

Lemma owned_targets_run m es : owned_targets m (run m es).
Proof.
  apply run_ind; clear es.
  - intros l mp Hl. left. destruct m, l as [|l]; cbn in Hl; try discriminate.
    by injection Hl as <-.
  - intros s c HI IH Hc l mp Hl. cbn [world fibers] in *.
    assert (Hold : ∀ mp', maps (world s) !! l = Some mp' →
              (target mp' = VUndefined ∨
               ∃ c' r h0, <[c := mounted_fiber m (viewer_for m (world s))
                          (length (refs (world s))) (length (nodes (world s)))]>
                          (fibers s) !! c' = Some (mounted_fiber m l r h0) ∧
                          target mp' = VElement (surface_of m h0))).
    { intros mp' Hmp'. destruct (IH l mp' Hmp') as [?|(c' & r & h0 & Hc' & Ht)]; [by left|].
      right. exists c', r, h0. split; [|exact Ht].
      rewrite lookup_insert_ne; [exact Hc'|congruence]. }
    destruct m; unfold mount_world in Hl; cbn [maps] in Hl.
    + apply lookup_app_Some in Hl as [Hl | [Hle Hl]]; [by apply Hold|].
      destruct (l - length (maps (world s))) as [|k] eqn:Hk; cbn in Hl;
        [|discriminate].
      injection Hl as <-. right.
      exists c, (length (refs (world s))), (length (nodes (world s))).
      replace l with (length (maps (world s))) by lia.
      split; [apply lookup_insert_eq | reflexivity].
    + destruct (decide (l = shared_viewer)) as [->|Hne].
      * rewrite list_lookup_alter_eq in Hl.
        apply fmap_Some in Hl as (mp0 & _ & ->). right.
        exists c, (length (refs (world s))), (length (nodes (world s))).
        split; [apply lookup_insert_eq | reflexivity].
      * rewrite list_lookup_alter_ne in Hl
          by (intros Heq; apply Hne; symmetry; exact Heq).
        by apply Hold.
  - intros s c l r h0 HI IH Hc. exact IH.
  - intros s c lc r h0 HI IH Hc l mp Hl. unfold unmount_world in Hl; cbn in Hl.
    destruct (decide (l = lc)) as [->|Hne].
    + rewrite list_lookup_alter_eq in Hl. apply fmap_Some in Hl as (mp0 & _ & ->).
      by left.
    + rewrite list_lookup_alter_ne in Hl by congruence.
      destruct (IH l mp Hl) as [?|(c' & r' & h0' & Hc' & Ht)]; [by left|].
      right. exists c', r', h0'. split; [|exact Ht]. cbn.
      rewrite lookup_delete_ne; [exact Hc'|].
      intros <-. rewrite Hc in Hc'. apply (inj Some) in Hc'.
      apply mounted_fiber_inj in Hc' as (? & _). congruence.
Qed.

(** X1. No viewer ever keeps a node that left the document: in either mode
    and after any run, the target of a map in the heap is [undefined], or it
    is the surface of an instance that is mounted right now, and that node is
    in the document. *)
Theorem no_dangling_target m es l mp :
  maps (world (run m es)) !! l = Some mp →
  target mp = VUndefined ∨
  ∃ h c f, target mp = VElement h ∧
           fibers (run m es) !! c = Some f ∧ surface f = Some h ∧
           is_connected (world (run m es)) h.
Proof.
  intros Hl.
  destruct (owned_targets_run m es l mp Hl) as [?|(c & r & h0 & Hc & Ht)]; [by left|].
  right. exists (surface_of m h0), c, (mounted_fiber m l r h0).
  split; [exact Ht|]. split; [exact Hc|]. split; [apply surface_mounted|].
  destruct (inv_fibers _ _ (Inv_run m es) _ _ Hc) as (l' & r' & h0' & Heq & _ & _ & Hcon).
  apply Hcon, surface_in_host.
Qed.

Lemma no_dangling_target_witness :
  maps (world (run Shared [Mount 0; Mount 1; Unmount 1; Mount 2])) !! 0 =
    Some (mkMap (VElement 5) [TileLayer OSM] (mkView (0%Z, 0%Z) 2%Z) false) ∧
  (target (mkMap (VElement 5) [TileLayer OSM] (mkView (0%Z, 0%Z) 2%Z) false) = VUndefined ∨
   ∃ h c f,
     target (mkMap (VElement 5) [TileLayer OSM] (mkView (0%Z, 0%Z) 2%Z) false) = VElement h ∧
     fibers (run Shared [Mount 0; Mount 1; Unmount 1; Mount 2]) !! c = Some f ∧
     surface f = Some h ∧
     is_connected (world (run Shared [Mount 0; Mount 1; Unmount 1; Mount 2])) h).
Proof.
  split; [reflexivity|].
  apply (no_dangling_target Shared [Mount 0; Mount 1; Unmount 1; Mount 2] 0). reflexivity.
Defined.

Lemma balance_run m es :
  count is_attach (trace (world (run m es))) =
  count is_detach (trace (world (run m es))) + size (fibers (run m es)).
Proof.
  apply run_ind; clear es.
  - destruct m; cbn; by rewrite map_size_empty.
  - intros s c _ IH Hc. cbn [world fibers]. unfold mount_world; cbn [trace].
    rewrite !count_app, IH, map_size_insert_None by exact Hc.
    destruct m; cbn; lia.
  - intros s c l r h0 _ IH _. unfold log. cbn [world fibers trace].
    rewrite !count_app, IH. cbn. lia.
  - intros s c l r h0 _ IH Hc. cbn [world fibers]. unfold unmount_world; cbn [trace].
    rewrite !count_app, IH, map_size_delete_Some by eauto.
    assert (size (fibers s) ≠ 0).
    { intros H0. apply map_size_empty_inv in H0. rewrite H0 in Hc.
      by rewrite lookup_empty in Hc. }
    destruct m; cbn; lia.
Qed.

(** X2. Attaches and detaches balance: after any run, in either mode, the
    number of attaches in the trace is the number of detaches plus the number
    of instances mounted now.  So without a mounted instance every attach has
    been undone, and detaches never outnumber attaches. *)
Theorem attach_detach_balance m es :
  count is_attach (trace (world (run m es))) =
    count is_detach (trace (world (run m es))) + size (fibers (run m es)) ∧
  count is_detach (trace (world (run m es))) ≤ count is_attach (trace (world (run m es))).
Proof. rewrite balance_run. split; [reflexivity | lia]. Qed.

(** X3. The shared cleanup does not check whose surface the viewer has: in
    shared mode, unmounting any mounted instance leaves the shared viewer
    without a target, also when another instance is still mounted; that other
    instance stays mounted, with its surface in the document, while the
    viewer it shares shows nothing. *)
Theorem shared_unmount_detaches_from_others es c c' :
  is_Some (fibers (run Shared es) !! c) →
  is_Some (fibers (run Shared es) !! c') →
  c ≠ c' →
  target <$> (maps (world (step Shared (run Shared es) (Unmount c)))
                !! defaultValue OLMapContext) = Some VUndefined ∧
  ∃ f' h',
    fibers (step Shared (run Shared es) (Unmount c)) !! c' = Some f' ∧
    surface f' = Some h' ∧
    is_connected (world (step Shared (run Shared es) (Unmount c))) h'.
Proof.
  intros [f Hc] [f' Hc'] Hne.
  pose proof (Inv_run Shared es) as HI.
  pose proof (Inv_step Shared _ (Unmount c) HI) as HI'.
  pose proof (inv_single _ _ HI eq_refl) as Hlen.
  destruct (inv_fibers _ _ HI _ _ Hc) as (l & r & h0 & -> & _ & Hl & _).
  rewrite (Hl eq_refl) in *. clear Hl.
  assert (Hs : step Shared (run Shared es) (Unmount c) =
               mkState (unmount_world Shared c shared_viewer r h0 (world (run Shared es)))
                       (delete c (fibers (run Shared es)))).
  { cbn -[unmount]. rewrite Hc. apply unmount_eq. }
  assert (Hc2 : fibers (step Shared (run Shared es) (Unmount c)) !! c' = Some f').
  { rewrite Hs. cbn. rewrite lookup_delete_ne; [exact Hc'|exact Hne]. }
  split.
  - rewrite Hs. unfold unmount_world; cbn.
    destruct (maps (world (run Shared es))) as [|mp0 [|? ?]]; try discriminate.
    reflexivity.
  - destruct (inv_fibers _ _ HI' _ _ Hc2) as (l' & r' & h0' & -> & _ & _ & Hcon).
    exists (mounted_fiber Shared l' r' h0'), (surface_of Shared h0').
    split; [exact Hc2|]. split; [apply surface_mounted|].
    apply Hcon, surface_in_host.
Qed.

Lemma shared_unmount_detaches_from_others_witness :
  is_Some (fibers (run Shared [Mount 0; Mount 1]) !! 0) ∧
  is_Some (fibers (run Shared [Mount 0; Mount 1]) !! 1) ∧
  0 ≠ 1 ∧
  target <$> (maps (world (step Shared (run Shared [Mount 0; Mount 1]) (Unmount 0)))
                !! defaultValue OLMapContext) = Some VUndefined.
Proof.
  assert (H0 : is_Some (fibers (run Shared [Mount 0; Mount 1]) !! 0))
    by (eexists; reflexivity).
  assert (H1 : is_Some (fibers (run Shared [Mount 0; Mount 1]) !! 1))
    by (eexists; reflexivity).
  assert (Hne : 0 ≠ 1) by lia.
  split; [exact H0|]. split; [exact H1|]. split; [exact Hne|].
  apply (shared_unmount_detaches_from_others [Mount 0; Mount 1] 0 1 H0 H1 Hne).
Defined.

Lemma own_viewers_run es : own_viewers (run Private es).
Proof.
  apply run_ind; clear es.
  - split; cbn; intros *; rewrite lookup_empty; discriminate.
  - intros s c HI [IHv IHi] Hc. split; cbn [world fibers].
    + intros c' l r h0. rewrite lookup_insert_Some.
      intros [[<- Heq] | [Hne Hc']].
      * apply mounted_fiber_inj in Heq as (<- & <- & <-).
        eexists. split; [apply lookup_snoc_new | reflexivity].
      * destruct (IHv _ _ _ _ Hc') as (mp & Hmp & Ht).
        exists mp. split; [|exact Ht]. cbn. by apply lookup_app_l_Some.
    + intros c1 c2 l r1 r2 h1 h2. rewrite !lookup_insert_Some.
      intros [[<- Heq1] | [Hne1 H1]] [[<- Heq2] | [Hne2 H2]]; try reflexivity.
      * apply mounted_fiber_inj in Heq1 as (<- & _).
        destruct (IHv _ _ _ _ H2) as (mp & Hmp & _).
        apply lookup_lt_Some in Hmp. cbn in Hmp. lia.
      * apply mounted_fiber_inj in Heq2 as (<- & _).
        destruct (IHv _ _ _ _ H1) as (mp & Hmp & _).
        apply lookup_lt_Some in Hmp. cbn in Hmp. lia.
      * eapply IHi; eassumption.
  - intros s c l r h0 _ IH _. exact IH.
  - intros s c lc r h0 HI [IHv IHi] Hc. split; cbn [world fibers].
    + intros c' l r' h0'. rewrite lookup_delete_Some. intros [Hne Hc'].
      destruct (IHv _ _ _ _ Hc') as (mp & Hmp & Ht).
      exists mp. split; [|exact Ht]. unfold unmount_world; cbn.
      rewrite list_lookup_alter_ne; [exact Hmp|].
      intros <-. apply Hne. eapply IHi; eassumption.
    + intros c1 c2 l r1 r2 h1 h2. rewrite !lookup_delete_Some.
      intros [_ H1] [_ H2]. eapply IHi; eassumption.
Qed.

(** X4. In private mode every mounted instance has a viewer that is attached
    to that instance's own surface, whatever other instances were mounted or
    unmounted meanwhile; the cleanup kept for the instance detaches exactly
    this viewer, and the cleanup of no other mounted instance does. *)
Theorem private_instance_attached es c f h :
  fibers (run Private es) !! c = Some f →
  surface f = Some h →
  ∃ l mp,
    maps (world (run Private es)) !! l = Some mp ∧
    target mp = VElement h ∧
    (∀ w, run_destroy f w = setTarget l VUndefined w) ∧
    (∀ c' f' w, c' ≠ c → fibers (run Private es) !! c' = Some f' →
       run_destroy f' w ≠ setTarget l VUndefined w).
Proof.
  intros Hc Hs. destruct (own_viewers_run es) as [Hv Hi].
  destruct (inv_fibers _ _ (Inv_run Private es) _ _ Hc) as (l & r & h0 & -> & _).
  rewrite surface_mounted in Hs. injection Hs as <-.
  destruct (Hv _ _ _ _ Hc) as (mp & Hmp & Ht).
  exists l, mp. split; [exact Hmp|]. split; [exact Ht|]. split; [reflexivity|].
  intros c' f' w Hne Hc' Heq.
  destruct (inv_fibers _ _ (Inv_run Private es) _ _ Hc') as (l' & r' & h0' & -> & _).
  apply (f_equal trace) in Heq. cbn in Heq.
  apply app_inv_head in Heq. injection Heq as ->.
  apply Hne. eapply Hi; eassumption.
Qed.

Lemma private_instance_attached_witness :
  fibers (run Private [Mount 0; Mount 1; Unmount 0]) !! 1 =
    Some (mounted_fiber Private 1 1 1) ∧
  surface (mounted_fiber Private 1 1 1) = Some 1 ∧
  ∃ l mp,
    maps (world (run Private [Mount 0; Mount 1; Unmount 0])) !! l = Some mp ∧
    target mp = VElement 1.
Proof.
  assert (H1 : fibers (run Private [Mount 0; Mount 1; Unmount 0]) !! 1 =
               Some (mounted_fiber Private 1 1 1)) by reflexivity.
  assert (H2 : surface (mounted_fiber Private 1 1 1) = Some 1) by reflexivity.
  split; [exact H1|]. split; [exact H2|].
  destruct (private_instance_attached [Mount 0; Mount 1; Unmount 0] 1 _ 1 H1 H2)
    as (l & mp & Hmp & Ht & _).
  exists l, mp. split; [exact Hmp | exact Ht].
Defined.

Lemma private_maps_count es :
  length (maps (world (run Private es))) =
  count is_construct (trace (world (run Private es))).
Proof.
  apply run_ind; clear es.
  - reflexivity.
  - intros s c _ IH _. cbn [world]. unfold mount_world; cbn [maps trace].
    rewrite count_app, length_snoc, IH. cbn. lia.
  - intros s c l r h0 _ IH _. unfold log. cbn [world maps trace].
    rewrite count_app, IH. cbn. lia.
  - intros s c l r h0 _ IH _. cbn [world]. unfold unmount_world; cbn [maps trace].
    rewrite count_app, length_alter, IH. cbn. lia.
Qed.

(** X5. In private mode viewers accumulate: after any run the heap holds one
    map for every mount that took place, those of unmounted instances
    included (the number of maps is the number of detaches so far plus the
    number of instances mounted now), and no step ever shortens the heap. *)
Theorem private_viewers_accumulate es :
  length (maps (world (run Private es))) =
    count is_attach (trace (world (run Private es))) ∧
  length (maps (world (run Private es))) =
    count is_detach (trace (world (run Private es))) + size (fibers (run Private es)) ∧
  ∀ e, length (maps (world (run Private es))) ≤
       length (maps (world (step Private (run Private es) e))).
Proof.
  assert (Hca : ∀ es', length (maps (world (run Private es'))) =
                       count is_attach (trace (world (run Private es')))).
  { intros es'. rewrite private_maps_count.
    pose proof (run_trace Private es') as Ht.
    induction Ht as [|t d _ IH Hd]; [reflexivity|].
    rewrite !count_app, IH. f_equal. by destruct Hd. }
  split; [apply Hca|]. split; [rewrite Hca; apply balance_run|].
  intros e. rewrite <- run_snoc, !private_maps_count.
  rewrite run_snoc.
  destruct (step_delta Private _ e (Inv_run Private es)) as (d & -> & _).
  rewrite count_app. lia.
Qed.

(** * Beyond the specification: refs, re-renders, round trips *)

(** X6. While an instance is mounted, [mapRef.current] is the instance's own
    committed [div]: after any run, in either mode, the ref object of a
    mounted instance holds the instance's surface (so the [!] of the effect is
    justified, and stays so for any later reader of the ref); no other
    mounted instance has the same ref object; once the instance is unmounted
    the ref holds [null] again. *)
Theorem ref_holds_surface m es c f h :
  fibers (run m es) !! c = Some f →
  surface f = Some h →
  ∃ r,
    hook_ref f = Some r ∧
    current r (world (run m es)) = VElement h ∧
    (∀ c' f', fibers (run m es) !! c' = Some f' → hook_ref f' = Some r → c' = c) ∧
    current r (world (step m (run m es) (Unmount c))) = VNull.
Proof.
  intros Hc Hs. destruct (refs_bound_run m es) as [Hr Hi].
  destruct (inv_fibers _ _ (Inv_run m es) _ _ Hc) as (l & r & h0 & -> & _).
  rewrite surface_mounted in Hs. injection Hs as <-.
  pose proof (Hr _ _ _ _ Hc) as Hrv.
  exists r. split; [reflexivity|]. split; [|split].
  - unfold current. by rewrite Hrv.
  - intros c' f' Hc' Hr'.
    destruct (inv_fibers _ _ (Inv_run m es) _ _ Hc') as (l' & r' & h0' & -> & _).
    cbn in Hr'. injection Hr' as ->. eapply Hi; eassumption.
  - cbn -[unmount]. rewrite Hc, unmount_eq. unfold unmount_world, current; cbn.
    rewrite list_lookup_insert_eq; [reflexivity|].
    eapply lookup_lt_Some, Hrv.
Qed.

Lemma ref_holds_surface_witness :
  fibers (run Shared [Mount 0; Rerender 0]) !! 0 = Some (mounted_fiber Shared 0 0 0) ∧
  surface (mounted_fiber Shared 0 0 0) = Some 1 ∧
  ∃ r,
    hook_ref (mounted_fiber Shared 0 0 0) = Some r ∧
    current r (world (run Shared [Mount 0; Rerender 0])) = VElement 1.
Proof.
  assert (H1 : fibers (run Shared [Mount 0; Rerender 0]) !! 0 =
               Some (mounted_fiber Shared 0 0 0)) by reflexivity.
  assert (H2 : surface (mounted_fiber Shared 0 0 0) = Some 1) by reflexivity.
  split; [exact H1|]. split; [exact H2|].
  destruct (ref_holds_surface Shared [Mount 0; Rerender 0] 0 _ 1 H1 H2)
    as (r & Hr & Hcur & _).
  exists r. split; [exact Hr | exact Hcur].
Defined.

(** X7. A re-render changes nothing but the trace: after any run, in either
    mode, re-rendering an instance leaves the maps, the ref objects, the DOM
    nodes and the hook state of every instance (its ref object, its
    registered cleanup, its committed nodes) as they were, and adds at most
    the render itself to the trace. *)
Theorem rerender_changes_nothing m es c :
  maps (world (step m (run m es) (Rerender c))) = maps (world (run m es)) ∧
  refs (world (step m (run m es) (Rerender c))) = refs (world (run m es)) ∧
  nodes (world (step m (run m es) (Rerender c))) = nodes (world (run m es)) ∧
  fibers (step m (run m es) (Rerender c)) = fibers (run m es) ∧
  (trace (world (step m (run m es) (Rerender c))) = trace (world (run m es)) ∨
   trace (world (step m (run m es) (Rerender c))) =
     trace (world (run m es)) ++ [ARender c]).
Proof.
  cbn -[rerender]. destruct (fibers (run m es) !! c) as [f|] eqn:Hc.
  - destruct (inv_fibers _ _ (Inv_run m es) _ _ Hc) as (l & r & h0 & -> & _).
    rewrite rerender_eq, insert_id by exact Hc. cbn. repeat split. by right.
  - repeat split. by left.
Qed.

(** X8. Mounting and then unmounting an instance in shared mode leaves the
    viewer detached and the set of mounted instances as it was; if the viewer
    had no target before, the heap of maps is exactly what it was.  (In
    private mode the same pair of events leaves one more map, see X5.) *)
Theorem shared_mount_unmount_round_trip es c :
  fibers (run Shared es) !! c = None →
  fibers (run Shared (es ++ [Mount c; Unmount c])) = fibers (run Shared es) ∧
  maps (world (run Shared (es ++ [Mount c; Unmount c]))) =
    alter (with_target VUndefined) (defaultValue OLMapContext)
          (maps (world (run Shared es))) ∧
  (target <$> (maps (world (run Shared es)) !! defaultValue OLMapContext)
     = Some VUndefined →
   maps (world (run Shared (es ++ [Mount c; Unmount c]))) = maps (world (run Shared es))).
Proof.
  intros Hc. pose proof (inv_single _ _ (Inv_run Shared es) eq_refl) as Hlen.
  rewrite run_app. set (s0 := run Shared es) in *.
  assert (Hs : run_from Shared s0 [Mount c; Unmount c] =
    mkState (unmount_world Shared c shared_viewer (length (refs (world s0)))
               (length (nodes (world s0))) (mount_world Shared c (world s0)))
            (delete c (<[c := mounted_fiber Shared shared_viewer
                              (length (refs (world s0))) (length (nodes (world s0)))]>
                         (fibers s0)))).
  { change (run_from Shared s0 [Mount c; Unmount c])
      with (step Shared (step Shared s0 (Mount c)) (Unmount c)).
    assert (H1 : step Shared s0 (Mount c) =
      mkState (mount_world Shared c (world s0))
        (<[c := mounted_fiber Shared shared_viewer
                  (length (refs (world s0))) (length (nodes (world s0)))]> (fibers s0))).
    { cbn -[component]. rewrite Hc. apply (mount_eq Shared). }
    rewrite H1. cbn -[unmount mounted_fiber]. rewrite lookup_insert_eq.
    apply unmount_eq. }
  rewrite Hs. unfold unmount_world, mount_world. cbn.
  destruct (maps (world s0)) as [|mp0 [|? ?]]; try discriminate.
  split; [by apply delete_insert_id|].
  split; [reflexivity|].
  cbn. intros Ht. injection Ht as Ht. destruct mp0; cbn in *. by subst.
Qed.

Lemma shared_mount_unmount_round_trip_witness :
  fibers (run Shared [Mount 0; Unmount 0]) !! 1 = None ∧
  fibers (run Shared ([Mount 0; Unmount 0] ++ [Mount 1; Unmount 1])) =
    fibers (run Shared [Mount 0; Unmount 0]).
Proof.
  split; [reflexivity|].
  apply (shared_mount_unmount_round_trip [Mount 0; Unmount 0] 1). reflexivity.
Defined.

Lemma private_step_maps s e l mp :
  Inv Private s →
  maps (world s) !! l = Some mp →
  maps (world (step Private s e)) !! l = Some mp ∨
  maps (world (step Private s e)) !! l = Some (with_target VUndefined mp).
Proof.
  intros HI Hl. destruct e as [c|c|c]; cbn -[mount rerender unmount component];
    destruct (fibers s !! c) as [f|] eqn:Hc; try (by left).
  - rewrite (mount_eq Private). left. cbn. by apply lookup_app_l_Some.
  - destruct (inv_fibers _ _ HI _ _ Hc) as (l' & r & h0 & -> & _).
    rewrite (rerender_eq Private). by left.
  - destruct (inv_fibers _ _ HI _ _ Hc) as (l' & r & h0 & -> & _).
    rewrite unmount_eq. unfold unmount_world; cbn.
    destruct (decide (l' = l)) as [->|Hne].
    + right. by rewrite list_lookup_alter_eq, Hl.
    + left. by rewrite list_lookup_alter_ne.
Qed.

Lemma with_target_same mp : with_target (target mp) mp = mp.
Proof. by destruct mp. Qed.

(** X12. A private viewer is attached once in its life: in private mode a
    map whose target is [undefined] (the viewer of an instance that was
    unmounted) is never written again; whatever events follow, it stays in
    the heap exactly as it is.  Only the shared viewer is ever re-attached. *)
Theorem private_viewer_never_reattached es es' l mp :
  maps (world (run Private es)) !! l = Some mp →
  target mp = VUndefined →
  maps (world (run Private (es ++ es'))) !! l = Some mp.
Proof.
  intros Hl Ht. induction es' as [|e es' IH] using rev_ind.
  - by rewrite app_nil_r.
  - rewrite app_assoc, run_snoc.
    destruct (private_step_maps _ e l mp (Inv_run Private (es ++ es')) IH) as [H|H];
      [exact H|].
    by rewrite H, <- Ht, with_target_same.
Qed.

Lemma private_viewer_never_reattached_witness :
  maps (world (run Private [Mount 0; Unmount 0])) !! 0 = Some (osm_map VUndefined) ∧
  target (osm_map VUndefined) = VUndefined ∧
  maps (world (run Private ([Mount 0; Unmount 0] ++ [Mount 0; Mount 1; Unmount 0])))
    !! 0 = Some (osm_map VUndefined).
Proof.
  assert (H1 : maps (world (run Private [Mount 0; Unmount 0])) !! 0 =
               Some (osm_map VUndefined)) by reflexivity.
  assert (H2 : target (osm_map VUndefined) = VUndefined) by reflexivity.
  split; [exact H1|]. split; [exact H2|].
  apply (private_viewer_never_reattached [Mount 0; Unmount 0]
           [Mount 0; Mount 1; Unmount 0] 0 _ H1 H2).
Defined.

(** * Beyond the specification: the naive listing *)

Lemma getElementById_null id w :
  getElementById id w = VNull → list_find (has_id id) (nodes w) = None.
Proof.
  unfold getElementById. by destruct (list_find (has_id id) (nodes w)) as [[h n]|].
Qed.

Lemma getElementById_new id w :
  getElementById id w = VNull →
  getElementById id
    (mkWorld (maps w) (refs w) (nodes w ++ [mkNode (Some id) true]) (trace w)) =
  VElement (length (nodes w)).
Proof.
  intros H%getElementById_null. unfold getElementById; cbn [nodes].
  rewrite list_find_app_r by exact H. cbn.
  rewrite decide_True by (by split). reflexivity.
Qed.

Lemma step_of_component m s e : step_of (component m) s e = step m s e.
Proof. reflexivity. Qed.

Lemma naive_mount s c :
  getElementById "map" (world s) = VNull →
  mount Naive.OLMap c s =
  mkState (mkWorld (maps (world s) ++ [osm_map VNull])
                   (refs (world s))
                   (nodes (world s) ++ [mkNode (Some "map"%string) true])
                   (trace (world s) ++
                      [ARender c;
                       AConstruct (length (maps (world s)))
                         (mkOptions VNull [TileLayer OSM] (mkView (0%Z, 0%Z) 2%Z));
                       ACommit c (length (nodes (world s)))]))
          (<[c := naive_fiber (length (nodes (world s)))]> (fibers s)).
Proof.
  intros H. unfold mount, Naive.OLMap, new_Map, commit_mount, flush_effects, log.
  cbn. unfold getElementById in *. cbn [nodes].
  destruct (list_find (has_id "map") (nodes (world s))) as [[h n]|]; [discriminate|].
  cbn. unfold insert_node; cbn. rewrite alter_snoc, <- !app_assoc. reflexivity.
Qed.

Lemma naive_rerender s c h :
  getElementById "map" (world s) = VElement h →
  rerender Naive.OLMap c (naive_fiber h) s =
  mkState (mkWorld (maps (world s) ++ [osm_map (VElement h)])
                   (refs (world s)) (nodes (world s))
                   (trace (world s) ++
                      [ARender c;
                       AConstruct (length (maps (world s)))
                         (mkOptions (VElement h) [TileLayer OSM]
                                    (mkView (0%Z, 0%Z) 2%Z))]))
          (<[c := naive_fiber h]> (fibers s)).
Proof.
  intros H. unfold rerender, Naive.OLMap, new_Map, flush_effects, log.
  cbn. unfold getElementById in *. cbn [nodes].
  destruct (list_find (has_id "map") (nodes (world s))) as [[h' n]|]; [|discriminate].
  injection H as ->. cbn. rewrite <- !app_assoc. reflexivity.
Qed.

Lemma naive_unmount s c h :
  unmount c (naive_fiber h) s =
  mkState (mkWorld (maps (world s)) (refs (world s))
                   (alter (set_connected false) h (nodes (world s)))
                   (trace (world s) ++ [ARemove c h]))
          (delete c (fibers s)).
Proof. reflexivity. Qed.

Lemma run_of_snoc body s es e :
  run_of body s (es ++ [e]) = step_of body (run_of body s es) e.
Proof. apply foldl_snoc. Qed.

(** The state of one naive instance after its mount and [n] re-renders. *)
Lemma naive_run s c n :
  fibers s !! c = None →
  getElementById "map" (world s) = VNull →
  maps (world (run_of Naive.OLMap s (Mount c :: repeat (Rerender c) n))) =
    maps (world s) ++ osm_map VNull
      :: repeat (osm_map (VElement (length (nodes (world s))))) n ∧
  refs (world (run_of Naive.OLMap s (Mount c :: repeat (Rerender c) n))) =
    refs (world s) ∧
  nodes (world (run_of Naive.OLMap s (Mount c :: repeat (Rerender c) n))) =
    nodes (world s) ++ [mkNode (Some "map"%string) true] ∧
  fibers (run_of Naive.OLMap s (Mount c :: repeat (Rerender c) n)) =
    <[c := naive_fiber (length (nodes (world s)))]> (fibers s) ∧
  count is_construct
    (trace (world (run_of Naive.OLMap s (Mount c :: repeat (Rerender c) n)))) =
    count is_construct (trace (world s)) + S n ∧
  count is_detach
    (trace (world (run_of Naive.OLMap s (Mount c :: repeat (Rerender c) n)))) =
    count is_detach (trace (world s)).
Proof.
  intros Hc Hg. induction n as [|n IH].
  - cbn [repeat]. unfold run_of; cbn -[mount]. rewrite Hc, naive_mount by exact Hg.
    cbn [world maps refs nodes fibers trace]. rewrite !count_app. cbn.
    repeat split; lia.
  - cbn [repeat]. rewrite repeat_cons, app_comm_cons, run_of_snoc.
    destruct IH as (Hm & Hr & Hn & Hf & Hk & Hd).
    remember (run_of Naive.OLMap s (Mount c :: repeat (Rerender c) n)) as s' eqn:Hs'.
    clear Hs'.
    assert (Hg' : getElementById "map" (world s') = VElement (length (nodes (world s)))).
    { pose proof (getElementById_new "map" (world s) Hg) as Hnew.
      unfold getElementById in *. cbn [nodes] in Hnew. by rewrite Hn. }
    cbn -[rerender]. rewrite Hf, lookup_insert_eq, naive_rerender by exact Hg'.
    cbn [world maps refs nodes fibers trace].
    rewrite Hm, Hr, Hn, Hf, !count_app, Hk, Hd, insert_insert_eq.
    repeat split; try (cbn; lia).
    rewrite <- app_assoc. cbn. f_equal. f_equal.
    rewrite <- repeat_cons. reflexivity.
Qed.

Lemma lookup_repeat_lt {A} (x : A) n k : k < n → repeat x n !! k = Some x.
Proof.
  revert k. induction n as [|n IH]; intros k Hk; [lia|].
  destruct k as [|k]; cbn; [reflexivity|]. apply IH. lia.
Qed.

Lemma naive_rerender_maps (s : State) n k :
  k < n →
  (maps (world s) ++ osm_map VNull
     :: repeat (osm_map (VElement (length (nodes (world s))))) n)
    !! (length (maps (world s)) + S k) =
  Some (osm_map (VElement (length (nodes (world s))))).
Proof.
  intros Hk. rewrite lookup_app_r by lia.
  replace (length (maps (world s)) + S k - length (maps (world s))) with (S k) by lia.
  cbn. apply lookup_repeat_lt. exact Hk.
Qed.

(** X9. The naive listing builds its map too early: when an instance is
    mounted into a document that has no element with the id [map], the map is
    constructed during the render, before the [div] is committed, and gets no
    element as target.  It is never attached later either: the [div] is in
    the document from the commit on, but after any number of re-renders that
    first map still has no element. *)
Theorem naive_first_map_unattached s c :
  fibers s !! c = None →
  getElementById "map" (world s) = VNull →
  trace (world (step_of Naive.OLMap s (Mount c))) =
    trace (world s) ++
      [ARender c;
       AConstruct (length (maps (world s)))
         (mkOptions VNull [TileLayer OSM] (mkView (0%Z, 0%Z) 2%Z));
       ACommit c (length (nodes (world s)))] ∧
  getElementById "map" (world (step_of Naive.OLMap s (Mount c))) =
    VElement (length (nodes (world s))) ∧
  ∀ n, maps (world (run_of Naive.OLMap s (Mount c :: repeat (Rerender c) n)))
         !! length (maps (world s)) = Some (osm_map VNull).
Proof.
  intros Hc Hg. split; [|split].
  - cbn -[mount]. rewrite Hc, naive_mount by exact Hg. reflexivity.
  - cbn -[mount]. rewrite Hc, naive_mount by exact Hg. cbn [world].
    pose proof (getElementById_new "map" (world s) Hg) as Hnew.
    unfold getElementById in *. exact Hnew.
  - intros n. destruct (naive_run s c n Hc Hg) as (-> & _).
    apply list_lookup_middle. reflexivity.
Qed.

Lemma naive_first_map_unattached_witness :
  fibers (mkState empty_world ∅) !! 0 = None ∧
  getElementById "map" (world (mkState empty_world ∅)) = VNull ∧
  maps (world (run_of Naive.OLMap (mkState empty_world ∅)
                 (Mount 0 :: repeat (Rerender 0) 2)))
    !! length (maps (world (mkState empty_world ∅))) = Some (osm_map VNull).
Proof.
  assert (H1 : fibers (mkState empty_world ∅) !! 0 = None) by reflexivity.
  assert (H2 : getElementById "map" (world (mkState empty_world ∅)) = VNull)
    by reflexivity.
  split; [exact H1|]. split; [exact H2|].
  apply (naive_first_map_unattached (mkState empty_world ∅) 0 H1 H2).
Defined.

(** X10. The naive listing constructs a map on every render: after a mount
    and [n] re-renders of one instance there are [n + 1] more maps in the heap
    and [n + 1] more constructor calls in the trace, where the listings with
    [useEffect] have one.  The maps of the re-renders find the [div] of the
    first render and take it as target. *)
Theorem naive_map_per_render s c n :
  fibers s !! c = None →
  getElementById "map" (world s) = VNull →
  length (maps (world (run_of Naive.OLMap s (Mount c :: repeat (Rerender c) n)))) =
    length (maps (world s)) + S n ∧
  count is_construct
    (trace (world (run_of Naive.OLMap s (Mount c :: repeat (Rerender c) n)))) =
    count is_construct (trace (world s)) + S n ∧
  ∀ k, k < n →
    maps (world (run_of Naive.OLMap s (Mount c :: repeat (Rerender c) n)))
      !! (length (maps (world s)) + S k) =
    Some (osm_map (VElement (length (nodes (world s))))).
Proof.
  intros Hc Hg. destruct (naive_run s c n Hc Hg) as (-> & _ & _ & _ & -> & _).
  split; [|split; [reflexivity|]].
  - rewrite length_app. cbn. rewrite repeat_length. lia.
  - intros k Hk. by apply naive_rerender_maps.
Qed.

Lemma naive_map_per_render_witness :
  fibers (mkState empty_world ∅) !! 0 = None ∧
  getElementById "map" (world (mkState empty_world ∅)) = VNull ∧
  length (maps (world (run_of Naive.OLMap (mkState empty_world ∅)
                         (Mount 0 :: repeat (Rerender 0) 3)))) =
    length (maps (world (mkState empty_world ∅))) + 4.
Proof.
  assert (H1 : fibers (mkState empty_world ∅) !! 0 = None) by reflexivity.
  assert (H2 : getElementById "map" (world (mkState empty_world ∅)) = VNull)
    by reflexivity.
  split; [exact H1|]. split; [exact H2|].
  apply (naive_map_per_render (mkState empty_world ∅) 0 3 H1 H2).
Defined.

(** X11. The naive listing never detaches: unmounting its instance only
    removes the [div]; no viewer operation is made and every map stays as it
    was, so the maps built by the re-renders keep as target a node that is no
    longer in the document. *)
Theorem naive_never_detaches s c n :
  fibers s !! c = None →
  getElementById "map" (world s) = VNull →
  trace (world (step_of Naive.OLMap
                  (run_of Naive.OLMap s (Mount c :: repeat (Rerender c) n))
                  (Unmount c))) =
    trace (world (run_of Naive.OLMap s (Mount c :: repeat (Rerender c) n)))
      ++ [ARemove c (length (nodes (world s)))] ∧
  maps (world (step_of Naive.OLMap
                 (run_of Naive.OLMap s (Mount c :: repeat (Rerender c) n))
                 (Unmount c))) =
    maps (world (run_of Naive.OLMap s (Mount c :: repeat (Rerender c) n))) ∧
  ¬ is_connected
      (world (step_of Naive.OLMap
                (run_of Naive.OLMap s (Mount c :: repeat (Rerender c) n))
                (Unmount c)))
      (length (nodes (world s))) ∧
  ∀ k, k < n →
    maps (world (step_of Naive.OLMap
                   (run_of Naive.OLMap s (Mount c :: repeat (Rerender c) n))
                   (Unmount c)))
      !! (length (maps (world s)) + S k) =
    Some (osm_map (VElement (length (nodes (world s))))).
Proof.
  intros Hc Hg. destruct (naive_run s c n Hc Hg) as (Hm & _ & Hn & Hf & _).
  remember (run_of Naive.OLMap s (Mount c :: repeat (Rerender c) n)) as s' eqn:Hs'.
  clear Hs'.
  assert (Hs : step_of Naive.OLMap s' (Unmount c) =
               unmount c (naive_fiber (length (nodes (world s)))) s').
  { cbn -[unmount]. by rewrite Hf, lookup_insert_eq. }
  rewrite Hs, naive_unmount. cbn [world maps nodes trace].
  split; [reflexivity|]. split; [reflexivity|]. split.
  - intros (nd & Hnd & Hcn). unfold is_connected in *. cbn [nodes] in Hnd.
    rewrite Hn, alter_snoc in Hnd. rewrite lookup_snoc_new in Hnd.
    injection Hnd as <-. discriminate.
  - intros k Hk. rewrite Hm. by apply naive_rerender_maps.
Qed.

Lemma naive_never_detaches_witness :
  fibers (mkState empty_world ∅) !! 0 = None ∧
  getElementById "map" (world (mkState empty_world ∅)) = VNull ∧
  maps (world (step_of Naive.OLMap
                 (run_of Naive.OLMap (mkState empty_world ∅)
                    (Mount 0 :: repeat (Rerender 0) 2))
                 (Unmount 0))) =
    maps (world (run_of Naive.OLMap (mkState empty_world ∅)
                   (Mount 0 :: repeat (Rerender 0) 2))).
Proof.
  assert (H1 : fibers (mkState empty_world ∅) !! 0 = None) by reflexivity.
  assert (H2 : getElementById "map" (world (mkState empty_world ∅)) = VNull)
    by reflexivity.
  split; [exact H1|]. split; [exact H2|].
  apply (naive_never_detaches (mkState empty_world ∅) 0 2 H1 H2).
Defined.

(** The naive listing, evaluated: one mount, two re-renders, one unmount. *)
Example naive_run_trace :
  trace (world (run_of Naive.OLMap (mkState empty_world ∅)
                  [Mount 0; Rerender 0; Rerender 0; Unmount 0])) =
  [ARender 0;
   AConstruct 0 (mkOptions VNull [TileLayer OSM] (mkView (0%Z, 0%Z) 2%Z));
   ACommit 0 0;
   ARender 0;
   AConstruct 1 (mkOptions (VElement 0) [TileLayer OSM] (mkView (0%Z, 0%Z) 2%Z));
   ARender 0;
   AConstruct 2 (mkOptions (VElement 0) [TileLayer OSM] (mkView (0%Z, 0%Z) 2%Z));
   ARemove 0 0].
Proof. reflexivity. Qed.
